(** * BlueNet boundary-crossing engine: a shallow embedding of [geofencing.py]

    The development follows the Python source function by function:
    [Config], [BoundaryCrossingEngine] with [process_gps],
    [_calculate_boundary_distance] and [_should_make_emergency_call], the
    Flask handler [gps_endpoint] and the body of the test feed
    [_run_test_scenarios].

    Conventions.
    - Python [float] timestamps, latitudes, longitudes and distances are
      rationals ([Q]); [float("inf")] is the extra constructor [Inf] of
      [pyfloat]. Rounding of binary floating point is not modelled.
    - Python [int] is [Z].
    - [time.time()], the outcome of the SQLite insert and the outcome of
      the outbound call are inputs of the functions that consult them.
    - Shapely's [Polygon.contains] and geopy's [geodesic(..).meters] are
      third-party code: they are the two operations of the class
      [Geometry], and every property holds for any instance of it.
    - The classes of the source spell their constructor [_init_], which
      Python never runs. The engine and its two callers are modelled on
      objects whose attributes are set; [gps_endpoint_live], [feed_round]
      and [load_engine] further down take the objects as the module
      builds them, with every exception of their [try] blocks.

    The model comes first, then the definitions the statements use and
    the demonstration data of [create_demo_boundaries], then the
    properties. *)

From Stdlib Require Import String ZArith QArith Qabs Qminmax List Bool Lia Lqa.
Import ListNotations.

Open Scope Q_scope.

(** ** Python values *)

(** A Python float that may be [float("inf")]. *)
Inductive pyfloat : Type :=
| Fin (q : Q)
| Inf.

Definition Qlt_bool (x y : Q) : bool := negb (Qle_bool y x).

(** [a < b] on floats. *)
Definition pyfloat_lt (a b : pyfloat) : bool :=
  match a, b with
  | Fin x, Fin y => Qlt_bool x y
  | Fin _, Inf => true
  | Inf, _ => false
  end.

(** One step of the builtin [min]: the running best is kept unless the
    next argument is strictly smaller. *)
Definition py_min2 (best x : pyfloat) : pyfloat :=
  if pyfloat_lt x best then x else best.

(** [min(a, b, c)]. *)
Definition py_min3 (a b c : pyfloat) : pyfloat := py_min2 (py_min2 a b) c.

(** Truth value of an [Optional[float]]: [None] and [0.0] are false. *)
Definition py_truthy (t : option Q) : bool :=
  match t with
  | None => false
  | Some x => negb (Qeq_bool x 0)
  end.

(** [int(x)] on a float: truncation towards zero. *)
Definition py_int (x : Q) : Z := Z.quot (Qnum x) (Zpos (Qden x)).

(** ** Configuration *)

Record Config : Type := {
  CALL_COOLDOWN_SECONDS : Q;
  MAX_EMERGENCY_CALLS : Z
}.

(** The values of the class [Config] in the source. *)
Definition source_config : Config :=
  {| CALL_COOLDOWN_SECONDS := 30; MAX_EMERGENCY_CALLS := 3 |}.

(** ** Geometry collaborators *)

(** A coordinate pair as Shapely stores it: [(x, y) = (longitude, latitude)]. *)
Definition coord : Type := (Q * Q)%type.

Record LineString : Type := { coords : list coord }.

Class Geometry : Type := {
  polygon : Type;
  (** [poly.contains(Point(x, y))] *)
  contains : polygon -> coord -> bool;
  (** [geodesic((lat, lon), (lat', lon')).meters] *)
  geodesic : Q * Q -> Q * Q -> Q
}.

(** ** Rows of the table [boundary_events] *)

Record BoundaryEvent : Type := {
  ev_timestamp : Z;
  ev_latitude : Q;
  ev_longitude : Q;
  ev_inside_boundary : bool;
  ev_boundary_crossed : bool;
  ev_distance_to_boundary : Q;
  ev_session_id : string;
  ev_alert_triggered : bool
}.

Inductive CrossingDirection : Type :=
| ENTERED_INDIAN_WATERS
| EXITED_INDIAN_WATERS.

(** The dictionary [process_gps] returns; [call_reason] and
    [emergency_call_made] are the keys that are only sometimes present. *)
Record Result : Type := {
  r_session_id : string;
  latitude : Q;
  longitude : Q;
  inside_boundary : bool;
  boundary_crossed : bool;
  crossing_direction : option CrossingDirection;
  distance_to_boundary : Q;
  total_crossings : Z;
  requires_emergency_call : bool;
  event_id : Z;
  call_reason : option string;
  emergency_call_made : bool
}.

Definition set_requires_emergency_call (r : Result) : Result :=
  {| r_session_id := r_session_id r;
     latitude := latitude r;
     longitude := longitude r;
     inside_boundary := inside_boundary r;
     boundary_crossed := boundary_crossed r;
     crossing_direction := crossing_direction r;
     distance_to_boundary := distance_to_boundary r;
     total_crossings := total_crossings r;
     requires_emergency_call := true;
     event_id := event_id r;
     call_reason := Some "BOUNDARY_VIOLATION"%string;
     emergency_call_made := emergency_call_made r |}.

Definition set_emergency_call_made (r : Result) : Result :=
  {| r_session_id := r_session_id r;
     latitude := latitude r;
     longitude := longitude r;
     inside_boundary := inside_boundary r;
     boundary_crossed := boundary_crossed r;
     crossing_direction := crossing_direction r;
     distance_to_boundary := distance_to_boundary r;
     total_crossings := total_crossings r;
     requires_emergency_call := requires_emergency_call r;
     event_id := event_id r;
     call_reason := call_reason r;
     emergency_call_made := true |}.

(** What a route answers: [jsonify(..), status]. Status 500 is the
    [except] branch of the routes, taken when [float(..)], the engine or
    the call system raises. [gps_endpoint] below starts from parsed
    numbers, an engine in place and a call that returns, and does not
    build it; [gps_endpoint_live] is the route with what raises. *)
Inductive Response : Type :=
| Response_200 (result : Result)
| Response_400 (error : string)
| Response_500 (error : string).

Section Engine.

Context {G : Geometry}.

(** ** The engine object *)

Record BoundaryCrossingEngine : Type := {
  india_polygon : polygon;
  boundary_lines : list LineString;
  session_id : string;
  current_inside_boundary : bool;
  last_inside_boundary : bool;
  boundary_crossings : Z;
  last_call_time : option Q;
  calls_for_current_crossing : Z
}.

(** The initialiser, spelled [_init_] in the source: the attribute values
    a new engine starts with. [session_id] is a fresh UUID prefix there
    and an argument here. *)
Definition _init_ (india_polygon : polygon) (boundary_lines : list LineString)
  (sid : string) : BoundaryCrossingEngine :=
  {| india_polygon := india_polygon;
     boundary_lines := boundary_lines;
     session_id := sid;
     current_inside_boundary := true;
     last_inside_boundary := true;
     boundary_crossings := 0%Z;
     last_call_time := None;
     calls_for_current_crossing := 0%Z |}.

(** Attribute assignments [self.x = v]. *)
Definition set_boundary_crossings (e : BoundaryCrossingEngine) (v : Z) :=
  {| india_polygon := india_polygon e;
     boundary_lines := boundary_lines e;
     session_id := session_id e;
     current_inside_boundary := current_inside_boundary e;
     last_inside_boundary := last_inside_boundary e;
     boundary_crossings := v;
     last_call_time := last_call_time e;
     calls_for_current_crossing := calls_for_current_crossing e |}.

Definition set_calls_for_current_crossing (e : BoundaryCrossingEngine) (v : Z) :=
  {| india_polygon := india_polygon e;
     boundary_lines := boundary_lines e;
     session_id := session_id e;
     current_inside_boundary := current_inside_boundary e;
     last_inside_boundary := last_inside_boundary e;
     boundary_crossings := boundary_crossings e;
     last_call_time := last_call_time e;
     calls_for_current_crossing := v |}.

Definition set_last_call_time (e : BoundaryCrossingEngine) (v : option Q) :=
  {| india_polygon := india_polygon e;
     boundary_lines := boundary_lines e;
     session_id := session_id e;
     current_inside_boundary := current_inside_boundary e;
     last_inside_boundary := last_inside_boundary e;
     boundary_crossings := boundary_crossings e;
     last_call_time := v;
     calls_for_current_crossing := calls_for_current_crossing e |}.

Definition set_last_inside_boundary (e : BoundaryCrossingEngine) (v : bool) :=
  {| india_polygon := india_polygon e;
     boundary_lines := boundary_lines e;
     session_id := session_id e;
     current_inside_boundary := current_inside_boundary e;
     last_inside_boundary := v;
     boundary_crossings := boundary_crossings e;
     last_call_time := last_call_time e;
     calls_for_current_crossing := calls_for_current_crossing e |}.

Definition set_current_inside_boundary (e : BoundaryCrossingEngine) (v : bool) :=
  {| india_polygon := india_polygon e;
     boundary_lines := boundary_lines e;
     session_id := session_id e;
     current_inside_boundary := v;
     last_inside_boundary := last_inside_boundary e;
     boundary_crossings := boundary_crossings e;
     last_call_time := last_call_time e;
     calls_for_current_crossing := calls_for_current_crossing e |}.

(** ** [_calculate_boundary_distance] *)

(** The body of the inner loop for index [i] of [line.coords]. *)
Definition segment_step (lat lon : Q) (line : LineString)
  (min_distance : pyfloat) (i : nat) : pyfloat :=
  let p1 := nth i (coords line) (0, 0) in
  let p2 := nth (i + 1) (coords line) (0, 0) in
  let dist1 := geodesic (lat, lon) (snd p1, fst p1) in
  let dist2 := geodesic (lat, lon) (snd p2, fst p2) in
  py_min3 min_distance (Fin dist1) (Fin dist2).

(** [for i in range(len(line.coords) - 1)], an empty range when the line
    has fewer than two coordinates. *)
Definition line_loop (lat lon : Q) (min_distance : pyfloat)
  (line : LineString) : pyfloat :=
  fold_left (segment_step lat lon line)
    (seq 0 (length (coords line) - 1)) min_distance.

Definition _calculate_boundary_distance (self : BoundaryCrossingEngine)
  (lat lon : Q) : Q :=
  let min_distance := fold_left (line_loop lat lon) (boundary_lines self) Inf in
  match min_distance with
  | Inf => 0
  | Fin d => d
  end.

(** ** [_should_make_emergency_call] *)

Definition _should_make_emergency_call (cfg : Config)
  (self : BoundaryCrossingEngine) (current_time : Q) : bool :=
  if (MAX_EMERGENCY_CALLS cfg <=? calls_for_current_crossing self)%Z then false
  else if py_truthy (last_call_time self)
          && match last_call_time self with
             | Some t => Qlt_bool (current_time - t) (CALL_COOLDOWN_SECONDS cfg)
             | None => false
             end
  then false
  else true.

(** ** [_log_boundary_event] *)

(** The table [boundary_events] is the list of its rows in insertion
    order; ids are handed out by AUTOINCREMENT and rows are never deleted,
    so [cursor.lastrowid] is the number of rows. [db_ok = false] is the
    [except] branch: nothing is stored and the event id is 0. *)
Definition _log_boundary_event (self : BoundaryCrossingEngine)
  (table : list BoundaryEvent) (db_ok : bool)
  (lat lon : Q) (inside_boundary boundary_crossed : bool)
  (distance timestamp : Q) : list BoundaryEvent * Z :=
  if db_ok then
    let table' :=
      table ++ [ {| ev_timestamp := py_int timestamp;
                    ev_latitude := lat;
                    ev_longitude := lon;
                    ev_inside_boundary := inside_boundary;
                    ev_boundary_crossed := boundary_crossed;
                    ev_distance_to_boundary := distance;
                    ev_session_id := session_id self;
                    ev_alert_triggered := boundary_crossed && negb inside_boundary |} ] in
    (table', Z.of_nat (length table'))
  else (table, 0%Z).

(** ** [process_gps] *)

(** Lines 147-156: the crossing detection, returning the two locals and
    the engine after the assignments of the taken branch. *)
Definition detect_crossing (self : BoundaryCrossingEngine) (inside_boundary : bool)
  : bool * option CrossingDirection * BoundaryCrossingEngine :=
  if negb (Bool.eqb inside_boundary (last_inside_boundary self)) then
    let self1 := set_boundary_crossings self (boundary_crossings self + 1)%Z in
    if inside_boundary then
      (true, Some ENTERED_INDIAN_WATERS, set_calls_for_current_crossing self1 0%Z)
    else
      (true, Some EXITED_INDIAN_WATERS, set_calls_for_current_crossing self1 0%Z)
  else (false, None, self).

Definition process_gps (cfg : Config) (self : BoundaryCrossingEngine)
  (table : list BoundaryEvent) (lat lon accuracy : Q)
  (current_time : Q) (db_ok : bool)
  : BoundaryCrossingEngine * list BoundaryEvent * Result :=
  let pt := (lon, lat) in
  let inside_boundary := contains (india_polygon self) pt in
  let distance_to_boundary := _calculate_boundary_distance self lat lon in
  let '(boundary_crossed, crossing_direction, self1) :=
    detect_crossing self inside_boundary in
  let '(table', event_id) :=
    _log_boundary_event self1 table db_ok lat lon inside_boundary
      boundary_crossed distance_to_boundary current_time in
  let self2 := set_last_inside_boundary self1 inside_boundary in
  let self3 := set_current_inside_boundary self2 inside_boundary in
  let result :=
    {| r_session_id := session_id self3;
       latitude := lat;
       longitude := lon;
       inside_boundary := inside_boundary;
       boundary_crossed := boundary_crossed;
       crossing_direction := crossing_direction;
       distance_to_boundary := distance_to_boundary;
       total_crossings := boundary_crossings self3;
       requires_emergency_call := false;
       event_id := event_id;
       call_reason := None;
       emergency_call_made := false |} in
  let result' :=
    if boundary_crossed && negb inside_boundary then
      if _should_make_emergency_call cfg self3 current_time
      then set_requires_emergency_call result
      else result
    else result in
  (self3, table', result').

End Engine.

(** ** The callers: [gps_endpoint] and the test feed *)

(** The two producers of positions: the Flask route [/gps] and the thread
    of [BoundaryTestingSystem]. *)
Inductive Caller : Type :=
| Http
| TestFeed.

(** What one call reads from outside the engine: who calls, the position
    after [float(..)], the clock when [process_gps] starts, whether the
    SQLite insert succeeds, whether the outbound call succeeds, and the
    clock when the caller commits a successful call. *)
Record Observation : Type := {
  obs_caller : Caller;
  obs_lat : Q;
  obs_lon : Q;
  obs_accuracy : Q;
  obs_time : Q;
  obs_db_ok : bool;
  obs_call_success : bool;
  obs_commit_time : Q
}.

Section Callers.

Context {G : Geometry}.

(** The module globals the handlers share: [ENGINE] and the table
    [boundary_events] of the database file. *)
Record World : Type := {
  ENGINE : BoundaryCrossingEngine;
  boundary_events : list BoundaryEvent
}.

(** Lines 658-668 and 430-441: the caller dispatches the call and, on
    success only, stamps the cooldown and counts the call. [mark] is
    whether the caller also sets [result["emergency_call_made"]]. *)
Definition handle_emergency_call (mark : bool) (engine : BoundaryCrossingEngine)
  (result : Result) (call_success : bool) (commit_time : Q)
  : BoundaryCrossingEngine * Result :=
  if requires_emergency_call result then
    if call_success then
      let engine1 := set_last_call_time engine (Some commit_time) in
      let engine2 :=
        set_calls_for_current_crossing engine1
          (calls_for_current_crossing engine1 + 1)%Z in
      (engine2, if mark then set_emergency_call_made result else result)
    else (engine, result)
  else (engine, result).

(** [not (-90 <= lat <= 90) or not (-180 <= lon <= 180)] *)
Definition invalid_coordinates (lat lon : Q) : bool :=
  negb (Qle_bool (-90) lat && Qle_bool lat 90)
  || negb (Qle_bool (-180) lon && Qle_bool lon 180).

Definition gps_endpoint (cfg : Config) (w : World) (o : Observation)
  : World * Response :=
  let lat := obs_lat o in
  let lon := obs_lon o in
  let accuracy := obs_accuracy o in
  if invalid_coordinates lat lon then
    (w, Response_400 "Invalid coordinates"%string)
  else
    let '(engine, table, result) :=
      process_gps cfg (ENGINE w) (boundary_events w) lat lon accuracy
        (obs_time o) (obs_db_ok o) in
    let '(engine', result') :=
      handle_emergency_call true engine result
        (obs_call_success o) (obs_commit_time o) in
    ({| ENGINE := engine'; boundary_events := table |}, Response_200 result').

(** One iteration of the loop of [_run_test_scenarios], as far as the
    engine is concerned: no range check, the same commit. *)
Definition test_iteration (cfg : Config) (w : World) (o : Observation)
  : World * Result :=
  let '(engine, table, result) :=
    process_gps cfg (ENGINE w) (boundary_events w)
      (obs_lat o) (obs_lon o) (obs_accuracy o) (obs_time o) (obs_db_ok o) in
  let '(engine', result') :=
    handle_emergency_call false engine result
      (obs_call_success o) (obs_commit_time o) in
  ({| ENGINE := engine'; boundary_events := table |}, result').

(** One observation, by whichever caller makes it; the result of the
    test feed is wrapped as a response so that both read alike. *)
Definition observe (cfg : Config) (w : World) (o : Observation)
  : World * Response :=
  match obs_caller o with
  | Http => gps_endpoint cfg w o
  | TestFeed =>
      let '(w', result) := test_iteration cfg w o in
      (w', Response_200 result)
  end.

(** A sequence of observations handled one after the other. *)
Fixpoint serve (cfg : Config) (w : World) (os : list Observation)
  : World * list Response :=
  match os with
  | [] => (w, [])
  | o :: os' =>
      let '(w1, r) := observe cfg w o in
      let '(w2, rs) := serve cfg w1 os' in
      (w2, r :: rs)
  end.

(** Whether a response authorises an escalation. *)
Definition authorized (r : Response) : bool :=
  match r with
  | Response_200 result => requires_emergency_call result
  | _ => false
  end.

Definition count_authorized (rs : list Response) : nat :=
  List.length (filter authorized rs).

(** Whether an observation reaches [process_gps]: the route checks the
    ranges first, the test feed does not. *)
Definition reaches_engine (o : Observation) : bool :=
  match obs_caller o with
  | Http => negb (invalid_coordinates (obs_lat o) (obs_lon o))
  | TestFeed => true
  end.

End Callers.

(** ** Two calls of [process_gps] at once *)

(** The statements of [process_gps] that read or write the engine, by the
    line they start on. Each is taken as one indivisible step, which is
    coarser than the interpreter's switching between byte codes: every
    interleaving of these steps is one the threads of the server can
    take, since [process_gps] acquires no lock. *)
Inductive Line : Type :=
| L134   (* clock, containment test, distance, locals *)
| L147   (* if inside_boundary != self.last_inside_boundary *)
| L148   (* boundary_crossed = True; self.boundary_crossings += 1 *)
| L151   (* direction; self.calls_for_current_crossing = 0 *)
| L159   (* self._log_boundary_event(...) *)
| L165   (* self.last_inside_boundary = ...; self.current_inside_boundary = ... *)
| L168   (* result = {...} *)
| L182   (* the emergency-call decision *)
| Returned.

(** The frame of one call: where it stands, its arguments and the
    readings it takes from outside, and its locals. *)
Record Frame : Type := {
  pc : Line;
  f_obs : Observation;
  f_inside_boundary : bool;
  f_distance_to_boundary : Q;
  f_boundary_crossed : bool;
  f_crossing_direction : option CrossingDirection;
  f_event_id : Z;
  f_result : option Result
}.

Definition call (o : Observation) : Frame :=
  {| pc := L134; f_obs := o; f_inside_boundary := false;
     f_distance_to_boundary := 0; f_boundary_crossed := false;
     f_crossing_direction := None; f_event_id := 0%Z; f_result := None |}.

Section Threads.

Context {G : Geometry}.

Definition goto (l : Line) (f : Frame) : Frame :=
  {| pc := l; f_obs := f_obs f; f_inside_boundary := f_inside_boundary f;
     f_distance_to_boundary := f_distance_to_boundary f;
     f_boundary_crossed := f_boundary_crossed f;
     f_crossing_direction := f_crossing_direction f;
     f_event_id := f_event_id f; f_result := f_result f |}.

Definition with_engine (w : World) (e : BoundaryCrossingEngine) : World :=
  {| ENGINE := e; boundary_events := boundary_events w |}.

(** One statement of one call, on the shared engine and table. *)
Definition step (cfg : Config) (f : Frame) (w : World) : Frame * World :=
  let o := f_obs f in
  let self := ENGINE w in
  match pc f with
  | L134 =>
      ({| pc := L147; f_obs := o;
          f_inside_boundary := contains (india_polygon self) (obs_lon o, obs_lat o);
          f_distance_to_boundary :=
            _calculate_boundary_distance self (obs_lat o) (obs_lon o);
          f_boundary_crossed := false;
          f_crossing_direction := None;
          f_event_id := f_event_id f; f_result := f_result f |}, w)
  | L147 =>
      if negb (Bool.eqb (f_inside_boundary f) (last_inside_boundary self))
      then (goto L148 f, w)
      else (goto L159 f, w)
  | L148 =>
      ({| pc := L151; f_obs := o; f_inside_boundary := f_inside_boundary f;
          f_distance_to_boundary := f_distance_to_boundary f;
          f_boundary_crossed := true;
          f_crossing_direction := f_crossing_direction f;
          f_event_id := f_event_id f; f_result := f_result f |},
       with_engine w (set_boundary_crossings self (boundary_crossings self + 1)%Z))
  | L151 =>
      ({| pc := L159; f_obs := o; f_inside_boundary := f_inside_boundary f;
          f_distance_to_boundary := f_distance_to_boundary f;
          f_boundary_crossed := f_boundary_crossed f;
          f_crossing_direction :=
            Some (if f_inside_boundary f then ENTERED_INDIAN_WATERS
                  else EXITED_INDIAN_WATERS);
          f_event_id := f_event_id f; f_result := f_result f |},
       with_engine w (set_calls_for_current_crossing self 0%Z))
  | L159 =>
      let '(table', event_id) :=
        _log_boundary_event self (boundary_events w) (obs_db_ok o)
          (obs_lat o) (obs_lon o) (f_inside_boundary f) (f_boundary_crossed f)
          (f_distance_to_boundary f) (obs_time o) in
      ({| pc := L165; f_obs := o; f_inside_boundary := f_inside_boundary f;
          f_distance_to_boundary := f_distance_to_boundary f;
          f_boundary_crossed := f_boundary_crossed f;
          f_crossing_direction := f_crossing_direction f;
          f_event_id := event_id; f_result := f_result f |},
       {| ENGINE := self; boundary_events := table' |})
  | L165 =>
      (goto L168 f,
       with_engine w
         (set_current_inside_boundary
            (set_last_inside_boundary self (f_inside_boundary f))
            (f_inside_boundary f)))
  | L168 =>
      ({| pc := L182; f_obs := o; f_inside_boundary := f_inside_boundary f;
          f_distance_to_boundary := f_distance_to_boundary f;
          f_boundary_crossed := f_boundary_crossed f;
          f_crossing_direction := f_crossing_direction f;
          f_event_id := f_event_id f;
          f_result :=
            Some {| r_session_id := session_id self;
                    latitude := obs_lat o;
                    longitude := obs_lon o;
                    inside_boundary := f_inside_boundary f;
                    boundary_crossed := f_boundary_crossed f;
                    crossing_direction := f_crossing_direction f;
                    distance_to_boundary := f_distance_to_boundary f;
                    total_crossings := boundary_crossings self;
                    requires_emergency_call := false;
                    event_id := f_event_id f;
                    call_reason := None;
                    emergency_call_made := false |} |}, w)
  | L182 =>
      ({| pc := Returned; f_obs := o; f_inside_boundary := f_inside_boundary f;
          f_distance_to_boundary := f_distance_to_boundary f;
          f_boundary_crossed := f_boundary_crossed f;
          f_crossing_direction := f_crossing_direction f;
          f_event_id := f_event_id f;
          f_result :=
            if f_boundary_crossed f && negb (f_inside_boundary f) then
              if _should_make_emergency_call cfg self (obs_time o)
              then option_map set_requires_emergency_call (f_result f)
              else f_result f
            else f_result f |}, w)
  | Returned => (f, w)
  end.

(** The longest path through [process_gps] has eight of these steps. *)
Definition call_steps : nat := 8.

Inductive ThreadId : Type :=
| First
| Second.

(** Two calls in flight on one engine. *)
Record Machine : Type := {
  thread1 : Frame;
  thread2 : Frame;
  shared : World
}.

Definition machine_step (cfg : Config) (m : Machine) (t : ThreadId) : Machine :=
  match t with
  | First =>
      let '(f, w) := step cfg (thread1 m) (shared m) in
      {| thread1 := f; thread2 := thread2 m; shared := w |}
  | Second =>
      let '(f, w) := step cfg (thread2 m) (shared m) in
      {| thread1 := thread1 m; thread2 := f; shared := w |}
  end.

(** A schedule names, step by step, the thread that runs next. *)
Definition interleave (cfg : Config) (schedule : list ThreadId) (m : Machine)
  : Machine :=
  fold_left (machine_step cfg) schedule m.

(** The first call runs to its end, then the second. *)
Definition serial_schedule : list ThreadId :=
  repeat First call_steps ++ repeat Second call_steps.

Definition start (w : World) (o1 o2 : Observation) : Machine :=
  {| thread1 := call o1; thread2 := call o2; shared := w |}.

(** [process_gps] as one step on the shared state. *)
Definition atomic_process_gps (cfg : Config) (w : World) (o : Observation)
  : World * Result :=
  let '(e, table, r) :=
    process_gps cfg (ENGINE w) (boundary_events w) (obs_lat o) (obs_lon o)
      (obs_accuracy o) (obs_time o) (obs_db_ok o) in
  ({| ENGINE := e; boundary_events := table |}, r).

Fixpoint run (cfg : Config) (n : nat) (f : Frame) (w : World) : Frame * World :=
  match n with
  | O => (f, w)
  | S n' => let '(f', w') := step cfg f w in run cfg n' f' w'
  end.

End Threads.

(** ** Definitions used to state the properties *)

(** "Return true iff both hold: the escalations of the episode are fewer
    than the maximum, and the last escalation time is unset or at least
    the cooldown ago." *)
Definition mayEscalate_rule {G : Geometry} (cfg : Config)
  (self : BoundaryCrossingEngine) (now : Q) : bool :=
  (calls_for_current_crossing self <? MAX_EMERGENCY_CALLS cfg)%Z
  && match last_call_time self with
     | None => true
     | Some t => Qle_bool (CALL_COOLDOWN_SECONDS cfg) (now - t)
     end.

(** The engine after [process_gps] alone, for an observation. *)
Definition engine_after_process_gps {G : Geometry} (cfg : Config) (w : World)
  (o : Observation) : BoundaryCrossingEngine :=
  fst (fst (process_gps cfg (ENGINE w) (boundary_events w) (obs_lat o)
              (obs_lon o) (obs_accuracy o) (obs_time o) (obs_db_ok o))).

(** The distances from [(lat, lon)] to every vertex of every line. *)
Definition vertex_distances {G : Geometry} (self : BoundaryCrossingEngine)
  (lat lon : Q) : list Q :=
  flat_map
    (fun line => map (fun p => geodesic (lat, lon) (snd p, fst p)) (coords line))
    (boundary_lines self).

(** [d] is the minimum of the list [ds]. *)
Definition is_minimum (d : Q) (ds : list Q) : Prop :=
  In d ds /\ forall x, In x ds -> d <= x.

(** The running minimum [m] is the least element of the set [P] of
    distances seen so far, [Inf] when none was seen. *)
Definition min_of (m : pyfloat) (P : Q -> Prop) : Prop :=
  match m with
  | Inf => forall x, ~ P x
  | Fin d => P d /\ forall x, P x -> d <= x
  end.

(** The distance to the [i]-th vertex of a line, as the loop reads it. *)
Definition vertex_dist {G : Geometry} (lat lon : Q) (line : LineString)
  (i : nat) : Q :=
  geodesic (lat, lon)
    (snd (nth i (coords line) (0, 0)), fst (nth i (coords line) (0, 0))).

(** ** The demonstration geometry of [create_demo_boundaries] *)

(** The ring [[68,20],[75,20],[75,26],[68,26],[68,20]] and the line
    [[68,23],[68,24],[68,25],[68,26]]. *)
Definition demo_ring : list coord :=
  [(68, 20); (75, 20); (75, 26); (68, 26); (68, 20)].

Definition demo_line : LineString :=
  {| coords := [(68, 23); (68, 24); (68, 25); (68, 26)] |}.

(** A stand-in for the two third-party operations, used only to run the
    engine on concrete inputs: the open rectangle spanned by a ring's
    first and third corner, and the taxicab distance in degrees. *)
Definition rect_contains (ring : list coord) (pt : coord) : bool :=
  match ring with
  | (x0, y0) :: _ :: (x1, y1) :: _ =>
      Qlt_bool x0 (fst pt) && Qlt_bool (fst pt) x1
      && Qlt_bool y0 (snd pt) && Qlt_bool (snd pt) y1
  | _ => false
  end.

Definition taxicab (p q : Q * Q) : Q :=
  Qabs (fst p - fst q) + Qabs (snd p - snd q).

Definition demo_geometry : Geometry :=
  {| polygon := list coord; contains := rect_contains; geodesic := taxicab |}.

Definition demo_engine : @BoundaryCrossingEngine demo_geometry :=
  @_init_ demo_geometry demo_ring [demo_line] "demo"%string.

Definition demo_world : @World demo_geometry :=
  {| ENGINE := demo_engine; boundary_events := [] |}.

(** A request at [(lat, lon)] at time [t] whose insert and call succeed;
    the call is committed one second later. *)
Definition demo_obs (lat lon t : Q) : Observation :=
  {| obs_caller := Http;
     obs_lat := lat; obs_lon := lon; obs_accuracy := 10; obs_time := t;
     obs_db_ok := true; obs_call_success := true; obs_commit_time := t + 1 |}.


(** An engine whose last successful call was stamped [0.0]. *)
Definition epoch_engine : @BoundaryCrossingEngine demo_geometry :=
  set_last_call_time demo_engine (Some 0).

(** The demonstration run: inside at 1000 s, out of the region at 1010 s
    (the call succeeds and is committed at 1011 s). *)
Definition world_after_exit : @World demo_geometry :=
  fst (serve source_config demo_world
         [demo_obs 22.5 69.0 1000; demo_obs 24.05 67.95 1010]).

(** A quota of one call per crossing. *)
Definition quota1_config : Config :=
  {| CALL_COOLDOWN_SECONDS := 30; MAX_EMERGENCY_CALLS := 1 |}.

(** An exit whose call fails, a re-entry, and a second exit 20 s after
    the first. *)
Definition failing_exit : Observation :=
  {| obs_caller := Http;
     obs_lat := 24.05; obs_lon := 67.95; obs_accuracy := 10; obs_time := 1010;
     obs_db_ok := true; obs_call_success := false; obs_commit_time := 1011 |}.

(** The second request arrives while the first is inside
    [_log_boundary_event]: the first call has run lines 134 to 162, the
    second then runs from start to end, and the first finishes. *)
Definition overlapping_schedule : list ThreadId :=
  repeat First 5 ++ repeat Second 8 ++ repeat First 3.

From Stdlib Require Import Permutation.

(** ** Further definitions: runs, the event table and its queries *)

(** How often a sequence of containment values changes, starting from
    the value [b]. *)
Fixpoint changes (b : bool) (bs : list bool) : nat :=
  match bs with
  | [] => 0
  | x :: rest => (if Bool.eqb x b then 0 else 1) + changes x rest
  end.

(** The containment values [process_gps] computes along a run: one for
    every observation that reaches it. *)
Definition containments {G : Geometry} (poly : polygon)
  (os : list Observation) : list bool :=
  map (fun o => contains poly (obs_lon o, obs_lat o)) (filter reaches_engine os).

(** [SELECT COUNT( * ) FROM boundary_events WHERE boundary_crossed = 1], the
    figure the dashboard and [/boundary-status] show as total crossings. *)
Definition count_boundary_crossed (table : list BoundaryEvent) : nat :=
  List.length (filter ev_boundary_crossed table).

(** [SELECT COUNT( * ) FROM boundary_events WHERE inside_boundary = 0]. *)
Definition count_violations (table : list BoundaryEvent) : nat :=
  List.length (filter (fun ev => negb (ev_inside_boundary ev)) table).

(** The observations of a run whose row is stored: those that reach
    [process_gps] and whose insert succeeds. *)
Definition logged (o : Observation) : bool :=
  reaches_engine o && obs_db_ok o.

(** Whether the caller commits a call for this observation: the record
    authorises one and the dispatch succeeds. *)
Definition committed {G : Geometry} (cfg : Config) (w : World)
  (o : Observation) : bool :=
  authorized (snd (observe cfg w o)) && obs_call_success o.

(** Whether some observation of a run is committed. *)
Fixpoint any_committed {G : Geometry} (cfg : Config) (w : World)
  (os : list Observation) : bool :=
  match os with
  | [] => false
  | o :: os' => committed cfg w o || any_committed cfg (fst (observe cfg w o)) os'
  end.

(** The running minimum of the distance loop is [Inf] or the distance to
    some vertex of the engine's lines. *)
Definition attained {G : Geometry} (lat lon : Q)
  (self : BoundaryCrossingEngine) (m : pyfloat) : Prop :=
  match m with
  | Inf => True
  | Fin d => In d (vertex_distances self lat lon)
  end.

(** ** [BoundaryTestingSystem]: the scenario schedule of the test feed *)

(** An entry of [Config.TEST_SCENARIOS]. *)
Record Scenario : Type := {
  sc_name : string;
  sc_lat : Q;
  sc_lon : Q;
  sc_inside_boundary : bool;
  sc_duration : Z
}.

(** The part of [Config] the test feed reads. *)
Record TestConfig : Type := {
  TEST_INTERVAL : Z;
  TEST_SCENARIOS : list Scenario
}.

Definition source_test_config : TestConfig :=
  {| TEST_INTERVAL := 2;
     TEST_SCENARIOS :=
       [ {| sc_name := "inside_indian_waters"; sc_lat := 22.5; sc_lon := 69.0;
            sc_inside_boundary := true; sc_duration := 8 |};
         {| sc_name := "approaching_boundary"; sc_lat := 23.95; sc_lon := 68.05;
            sc_inside_boundary := true; sc_duration := 6 |};
         {| sc_name := "at_boundary_line"; sc_lat := 24.0; sc_lon := 68.0;
            sc_inside_boundary := true; sc_duration := 4 |};
         {| sc_name := "CROSSED_BOUNDARY"; sc_lat := 24.05; sc_lon := 67.95;
            sc_inside_boundary := false; sc_duration := 8 |};
         {| sc_name := "deep_in_pakistan_waters"; sc_lat := 24.2; sc_lon := 67.8;
            sc_inside_boundary := false; sc_duration := 6 |};
         {| sc_name := "returning_to_boundary"; sc_lat := 24.0; sc_lon := 68.0;
            sc_inside_boundary := true; sc_duration := 4 |};
         {| sc_name := "back_in_indian_waters"; sc_lat := 23.8; sc_lon := 68.2;
            sc_inside_boundary := true; sc_duration := 10 |} ] |}.

(** [l[i]] on a Python list: a negative index counts from the end, an
    index outside [-len, len) raises IndexError ([None]). *)
Definition py_index {A : Type} (l : list A) (i : Z) : option A :=
  let n := Z.of_nat (List.length l) in
  if (0 <=? i)%Z then nth_error l (Z.to_nat i)
  else if (- n <=? i)%Z then nth_error l (Z.to_nat (n + i))
  else None.

(** The attributes of the testing system the loop reads and writes. *)
Record BoundaryTestingSystem : Type := {
  running : bool;
  scenario_index : Z;
  scenario_timer : Z
}.

(** What one round of the loop draws and reads from outside: the two
    [random.uniform(-0.0005, 0.0005)] and the [random.uniform(3, 15)],
    the clock, and the outcomes of the insert and of the call. *)
Record FeedInput : Type := {
  lat_noise : Q;
  lon_noise : Q;
  feed_accuracy : Q;
  feed_time : Q;
  feed_db_ok : bool;
  feed_call_success : bool;
  feed_commit_time : Q
}.

(** The position the loop hands to [process_gps]. *)
Definition feed_observation (sc : Scenario) (i : FeedInput) : Observation :=
  {| obs_caller := TestFeed;
     obs_lat := sc_lat sc + lat_noise i;
     obs_lon := sc_lon sc + lon_noise i;
     obs_accuracy := feed_accuracy i;
     obs_time := feed_time i;
     obs_db_ok := feed_db_ok i;
     obs_call_success := feed_call_success i;
     obs_commit_time := feed_commit_time i |}.

(** ** [EmergencyCallSystem] *)

(** The Twilio client object; only its presence matters to the code. *)
Record TwilioClient : Type := {
  account_sid : string;
  auth_token : string
}.

Record EmergencyCallSystem : Type := {
  twilio_client : option TwilioClient
}.

(** Rows of the table [emergency_calls]. *)
Record EmergencyCallRow : Type := {
  ec_timestamp : Z;
  ec_call_type : string;
  ec_message : string;
  ec_recipient : string;
  ec_call_sid : option string;
  ec_success : bool;
  ec_crossing_event_id : Z;
  ec_session_id : string
}.

(** What one dispatch reads from outside: the text
    [_create_boundary_alert_message] builds (it formats floats and reads
    the UTC clock), what [calls.create] does ([Some sid], or [None] when
    it raises), whether the insert into [emergency_calls] succeeds, and
    the clock of [_log_emergency_call]. *)
Record DispatchInput : Type := {
  alert_message : string;
  twilio_outcome : option string;
  call_log_ok : bool;
  call_log_time : Q
}.

(** [_log_emergency_call]: one row, or nothing when the insert raises. *)
Definition _log_emergency_call (recipient : string)
  (calls : list EmergencyCallRow) (d : DispatchInput)
  (call_type message : string) (success : bool) (call_sid : option string)
  (event_id : Z) (session_id : string) : list EmergencyCallRow :=
  if call_log_ok d then
    calls ++ [ {| ec_timestamp := py_int (call_log_time d);
                  ec_call_type := call_type;
                  ec_message := message;
                  ec_recipient := recipient;
                  ec_call_sid := call_sid;
                  ec_success := success;
                  ec_crossing_event_id := event_id;
                  ec_session_id := session_id |} ]
  else calls.

(** [_simulate_emergency_call] *)
Definition _simulate_emergency_call (recipient : string)
  (calls : list EmergencyCallRow) (d : DispatchInput)
  (message session_id : string) (event_id : Z)
  : list EmergencyCallRow * bool :=
  (_log_emergency_call recipient calls d "BOUNDARY_VIOLATION" message true
     (Some "SIM_CALL"%string) event_id session_id, true).

(** [make_boundary_violation_call]; [recipient] is
    [Config.RECIPIENT_PHONE_NUMBER]. *)
Definition make_boundary_violation_call (recipient : string)
  (self : EmergencyCallSystem) (calls : list EmergencyCallRow)
  (d : DispatchInput) (lat lon distance : Q) (session_id : string)
  (event_id : Z) : list EmergencyCallRow * bool :=
  let message := alert_message d in
  match twilio_client self with
  | None => _simulate_emergency_call recipient calls d message session_id event_id
  | Some _ =>
      match twilio_outcome d with
      | Some sid =>
          (_log_emergency_call recipient calls d "BOUNDARY_VIOLATION" message
             true (Some sid) event_id session_id, true)
      | None =>
          (_log_emergency_call recipient calls d "BOUNDARY_VIOLATION" message
             false None event_id session_id, false)
      end
  end.

(** Whether a dispatch succeeds: always without a client, otherwise when
    Twilio accepts the call. *)
Definition dispatch_succeeds (system : EmergencyCallSystem)
  (d : DispatchInput) : bool :=
  match twilio_client system with
  | None => true
  | Some _ => match twilio_outcome d with Some _ => true | None => false end
  end.

(** An observation with the outcome of the call filled in. *)
Definition with_call_success (o : Observation) (b : bool) : Observation :=
  {| obs_caller := obs_caller o;
     obs_lat := obs_lat o;
     obs_lon := obs_lon o;
     obs_accuracy := obs_accuracy o;
     obs_time := obs_time o;
     obs_db_ok := obs_db_ok o;
     obs_call_success := b;
     obs_commit_time := obs_commit_time o |}.

(** ** The callers with everything that can raise *)

(** An [EmergencyCallSystem] object. The class defines [_init_], not
    [__init__], so [EmergencyCallSystem()] runs no initialiser and the
    object it returns has no attribute at all: [Bare]. [Initialised] is
    an object whose [twilio_client] has been set. *)
Inductive CallSystemObject : Type :=
| Bare
| Initialised (system : EmergencyCallSystem).

(** Line 477: [EMERGENCY_SYSTEM = EmergencyCallSystem()]. *)
Definition EMERGENCY_SYSTEM : CallSystemObject := Bare.

(** [str(e)] of the AttributeError that [if not self.twilio_client],
    line 275, raises on a bare object. *)
Definition no_twilio_client : string :=
  "'EmergencyCallSystem' object has no attribute 'twilio_client'".

(** [str(e)] of the AttributeError that [ENGINE.process_gps], line 655,
    raises while [ENGINE] is [None]. *)
Definition no_process_gps : string :=
  "'NoneType' object has no attribute 'process_gps'".

(** geopy (from its version 2) takes no latitude outside [-90, 90]:
    [geodesic(..)] raises ValueError with this text. *)
Definition latitude_refused (lat : Q) : bool :=
  negb (Qle_bool (-90) lat && Qle_bool lat 90).

Definition latitude_out_of_range : string :=
  "Latitude must be in the [-90; 90] range.".

(** Whether [_calculate_boundary_distance] raises at a latitude: its loop
    hands geopy the position together with every coordinate of every
    line that has two coordinates or more, and no other. *)
Definition geodesic_raises {G : Geometry} (self : BoundaryCrossingEngine)
  (lat : Q) : bool :=
  existsb
    (fun line =>
       (2 <=? List.length (coords line))%nat
       && (latitude_refused lat
           || existsb (fun p => latitude_refused (snd p)) (coords line)))
    (boundary_lines self).

(** The module globals as a request finds them. [ENGINE] is [None] until
    something assigns it. *)
Record Globals {G : Geometry} : Type := {
  g_ENGINE : option BoundaryCrossingEngine;
  g_EMERGENCY_SYSTEM : CallSystemObject;
  g_boundary_events : list BoundaryEvent;
  g_emergency_calls : list EmergencyCallRow
}.

(** What else raises in a call of the route, with its [str(e)]: nothing;
    one of the conversions [float(..)] of lines 647-649, before the range
    check; or a library call of lines 137-141 other than the latitude
    geopy refuses, before [process_gps] touches the engine. *)
Inductive RouteFault : Type :=
| NoRouteFault
| RaisesBeforeCheck (message : string)
| RaisesInProcessGps (message : string).

(** The route [/gps], lines 644-673, with its [except] branch and its
    dispatch through the call system. *)
Definition gps_endpoint_live {G : Geometry} (cfg : Config) (recipient : string)
  (g : Globals) (o : Observation) (d : DispatchInput) (fault : RouteFault)
  : Globals * Response :=
  let lat := obs_lat o in
  let lon := obs_lon o in
  let accuracy := obs_accuracy o in
  match fault with
  | RaisesBeforeCheck message => (g, Response_500 message)
  | _ =>
      if invalid_coordinates lat lon then
        (g, Response_400 "Invalid coordinates"%string)
      else
        match g_ENGINE g with
        | None => (g, Response_500 no_process_gps)
        | Some self =>
            match fault with
            | RaisesInProcessGps message => (g, Response_500 message)
            | _ =>
                if geodesic_raises self lat then
                  (g, Response_500 latitude_out_of_range)
                else
                  let '(engine, table, result) :=
                    process_gps cfg self (g_boundary_events g) lat lon accuracy
                      (obs_time o) (obs_db_ok o) in
                  if requires_emergency_call result then
                    match g_EMERGENCY_SYSTEM g with
                    | Bare =>
                        ({| g_ENGINE := Some engine;
                            g_EMERGENCY_SYSTEM := g_EMERGENCY_SYSTEM g;
                            g_boundary_events := table;
                            g_emergency_calls := g_emergency_calls g |},
                         Response_500 no_twilio_client)
                    | Initialised system =>
                        let '(calls', call_success) :=
                          make_boundary_violation_call recipient system
                            (g_emergency_calls g) d
                            (latitude result) (longitude result)
                            (distance_to_boundary result) (r_session_id result)
                            (event_id result) in
                        let '(engine', result') :=
                          handle_emergency_call true engine result call_success
                            (obs_commit_time o) in
                        ({| g_ENGINE := Some engine';
                            g_EMERGENCY_SYSTEM := g_EMERGENCY_SYSTEM g;
                            g_boundary_events := table;
                            g_emergency_calls := calls' |},
                         Response_200 result')
                    end
                  else
                    ({| g_ENGINE := Some engine;
                        g_EMERGENCY_SYSTEM := g_EMERGENCY_SYSTEM g;
                        g_boundary_events := table;
                        g_emergency_calls := g_emergency_calls g |},
                     Response_200 result)
            end
        end
  end.

(** The globals of a process in which an engine and a call system have
    been set up, as the model of the route without exceptions has them. *)
Definition globals_of {G : Geometry} (system : EmergencyCallSystem) (w : World)
  (calls : list EmergencyCallRow) : Globals :=
  {| g_ENGINE := Some (ENGINE w);
     g_EMERGENCY_SYSTEM := Initialised system;
     g_boundary_events := boundary_events w;
     g_emergency_calls := calls |}.

(** What one round of the test feed reads from outside: the draws and
    readings of [FeedInput] (of which the outcome of the call is not
    read here: it is what [make_boundary_violation_call] returns), the
    readings of the dispatch, and whether a library call of lines
    137-141 other than the latitude geopy refuses raises, before
    [process_gps] touches the engine. *)
Record Round : Type := {
  round_input : FeedInput;
  round_dispatch : DispatchInput;
  round_gps_raises : bool
}.

(** Lines 447-451: the timer and the index after a round that ran to
    its end. *)
Definition next_schedule (tc : TestConfig) (scenario : Scenario)
  (ts : BoundaryTestingSystem) : BoundaryTestingSystem :=
  let timer := (scenario_timer ts + TEST_INTERVAL tc)%Z in
  if (sc_duration scenario <=? timer)%Z then
    {| running := running ts;
       scenario_index :=
         ((scenario_index ts + 1)
          mod Z.of_nat (List.length (TEST_SCENARIOS tc)))%Z;
       scenario_timer := 0 |}
  else
    {| running := running ts;
       scenario_index := scenario_index ts;
       scenario_timer := timer |}.

(** One round of [while self.running] in [_run_test_scenarios], lines
    411-457. Whatever raises inside the [try] (the scenario lookup,
    [process_gps], the dispatch on a bare call system) sends the round
    to the [except] branch: there is no result, the timer and the index
    stay, and the engine keeps what [process_gps] had done by then. *)
Definition feed_round {G : Geometry} (cfg : Config) (recipient : string)
  (tc : TestConfig) (system : CallSystemObject)
  (ts : BoundaryTestingSystem) (w : World) (calls : list EmergencyCallRow)
  (rd : Round)
  : BoundaryTestingSystem * World * list EmergencyCallRow * option Result :=
  match py_index (TEST_SCENARIOS tc) (scenario_index ts) with
  | None => (ts, w, calls, None)
  | Some scenario =>
      let o := feed_observation scenario (round_input rd) in
      if round_gps_raises rd || geodesic_raises (ENGINE w) (obs_lat o) then
        (ts, w, calls, None)
      else
        let '(engine, table, result) :=
          process_gps cfg (ENGINE w) (boundary_events w) (obs_lat o)
            (obs_lon o) (obs_accuracy o) (obs_time o) (obs_db_ok o) in
        if requires_emergency_call result then
          match system with
          | Bare =>
              (ts, {| ENGINE := engine; boundary_events := table |}, calls, None)
          | Initialised self =>
              let '(calls', call_success) :=
                make_boundary_violation_call recipient self calls
                  (round_dispatch rd) (latitude result) (longitude result)
                  (distance_to_boundary result) (r_session_id result)
                  (event_id result) in
              let '(engine', result') :=
                handle_emergency_call false engine result call_success
                  (obs_commit_time o) in
              (next_schedule tc scenario ts,
               {| ENGINE := engine'; boundary_events := table |}, calls',
               Some result')
          end
        else
          (next_schedule tc scenario ts,
           {| ENGINE := engine; boundary_events := table |}, calls,
           Some result)
  end.

(** Rounds of the loop, one per input, while [running] stays set. *)
Fixpoint feed_rounds {G : Geometry} (cfg : Config) (recipient : string)
  (tc : TestConfig) (system : CallSystemObject)
  (ts : BoundaryTestingSystem) (w : World) (calls : list EmergencyCallRow)
  (rounds : list Round)
  : BoundaryTestingSystem * World * list EmergencyCallRow
    * list (option Result) :=
  match rounds with
  | [] => (ts, w, calls, [])
  | rd :: rest =>
      if running ts then
        let '(ts1, w1, calls1, r) :=
          feed_round cfg recipient tc system ts w calls rd in
        let '(ts2, w2, calls2, rs) :=
          feed_rounds cfg recipient tc system ts1 w1 calls1 rest in
        (ts2, w2, calls2, r :: rs)
      else (ts, w, calls, [])
  end.

(** Whether a round ran to its end, and how many of a run did. *)
Definition has_result (r : option Result) : bool :=
  match r with
  | Some _ => true
  | None => false
  end.

Definition completed (results : list (option Result)) : nat :=
  List.length (filter has_result results).

(** ** Loading the GeoJSON files *)

(** What [json.load] returns. An object is the list of its members, each
    key once; [null] is Python's [None]. *)
#[warnings="-register-all"]
Inductive json : Type :=
| JNull
| JBool (b : bool)
| JNum (q : Q)
| JStr (s : string)
| JArr (items : list json)
| JObj (members : list (string * json)).

(** The exceptions the loaders can end in. [LibraryError] stands for
    whatever Shapely raises on a geometry it does not accept. *)
Inductive PyError : Type :=
| AttributeError
| KeyError (key : string)
| TypeError
| ValueError (message : string)
| LibraryError.

Definition bind {A B : Type} (x : PyError + A) (k : A -> PyError + B)
  : PyError + B :=
  match x with
  | inl e => inl e
  | inr a => k a
  end.

Notation "x <- e ;; k" := (bind e (fun x => k))
  (at level 61, e at next level, right associativity).

Fixpoint dict_lookup (members : list (string * json)) (key : string)
  : option json :=
  match members with
  | [] => None
  | (k, v) :: rest => if String.eqb k key then Some v else dict_lookup rest key
  end.

(** [v.get(key, default)]: only a dict has [get]. *)
Definition py_get (v : json) (key : string) (default : json)
  : PyError + json :=
  match v with
  | JObj members =>
      inr (match dict_lookup members key with
           | Some x => x
           | None => default
           end)
  | _ => inl AttributeError
  end.

(** [v[key]] with a string key. *)
Definition py_getitem (v : json) (key : string) : PyError + json :=
  match v with
  | JObj members =>
      match dict_lookup members key with
      | Some x => inr x
      | None => inl (KeyError key)
      end
  | _ => inl TypeError
  end.

(** [v == "..."] *)
Definition py_eq_str (v : json) (s : string) : bool :=
  match v with
  | JStr t => String.eqb t s
  | _ => false
  end.

(** [for x in v]: a list gives its items, a dict its keys, a string its
    characters; nothing else can be iterated. *)
Definition py_iter (v : json) : PyError + list json :=
  match v with
  | JArr items => inr items
  | JObj members => inr (map (fun m => JStr (fst m)) members)
  | JStr s =>
      inr (map (fun c => JStr (String c EmptyString)) (list_ascii_of_string s))
  | _ => inl TypeError
  end.

Section Loaders.

Context {G : Geometry}.

(** Shapely's constructors: [LineString(coordinates)] and [shape(geom)],
    each returning the object or raising. *)
Variable make_LineString : json -> PyError + LineString.
Variable shape : json -> PyError + polygon.

(** The two lines both branches of [load_geojson_lines] share: a
    geometry of type "LineString" gives one line, any other none. *)
Definition geometry_lines (g : json) : PyError + list LineString :=
  t <- py_get g "type" JNull ;;
  if py_eq_str t "LineString" then
    c <- py_getitem g "coordinates" ;;
    line <- make_LineString c ;;
    inr [line]
  else inr [].

(** [for feat in ...] with the list [lines] built so far. *)
Fixpoint features_loop (feats : list json) (lines : list LineString)
  : PyError + list LineString :=
  match feats with
  | [] => inr lines
  | feat :: rest =>
      g <- py_get feat "geometry" (JObj []) ;;
      new <- geometry_lines g ;;
      features_loop rest (lines ++ new)
  end.

(** [load_geojson_lines], from the parsed file on. *)
Definition load_geojson_lines (gj : json) : PyError + list LineString :=
  t <- py_get gj "type" JNull ;;
  if py_eq_str t "FeatureCollection" then
    fs <- py_get gj "features" (JArr []) ;;
    feats <- py_iter fs ;;
    features_loop feats []
  else if py_eq_str t "Feature" then
    g <- py_get gj "geometry" (JObj []) ;;
    geometry_lines g
  else inr [].

(** [load_geojson_polygon], from the parsed file on. *)
Definition load_geojson_polygon (path : string) (gj : json)
  : PyError + polygon :=
  t <- py_get gj "type" JNull ;;
  if py_eq_str t "Feature" then
    geom <- py_get gj "geometry" JNull ;;
    shape geom
  else if py_eq_str t "Polygon" || py_eq_str t "MultiPolygon" then
    shape gj
  else inl (ValueError ("No polygon geometry found in " ++ path)).

(** [BoundaryCrossingEngine(india_polygon, boundary_lines)], line 886.
    The class defines [_init_], not [__init__], so the call reaches the
    constructor of [object], which takes no argument: TypeError. *)
Definition construct_BoundaryCrossingEngine (india_polygon : polygon)
  (boundary_lines : list LineString) : PyError + BoundaryCrossingEngine :=
  inl TypeError.

(** The part of [main] that loads both files and builds the engine,
    lines 876-886; an exception of a loader is caught and ends [main],
    one of the constructor leaves it uncaught. Either way there is no
    engine. *)
Definition load_engine (zone boundary : json)
  : PyError + BoundaryCrossingEngine :=
  india_polygon <- load_geojson_polygon "india_maritime_zone.geojson" zone ;;
  boundary_lines <- load_geojson_lines boundary ;;
  construct_BoundaryCrossingEngine india_polygon boundary_lines.

End Loaders.

(** [gj.get(key)] on the members of a dict. *)
Definition member_or_null (members : list (string * json)) (key : string)
  : json :=
  match dict_lookup members key with
  | Some x => x
  | None => JNull
  end.

(** [gj] is a dict of type "FeatureCollection" whose "features" is the
    list [feats]. *)
Definition feature_collection_of (gj : json) (feats : list json) : Prop :=
  exists members,
    gj = JObj members
    /\ dict_lookup members "type" = Some (JStr "FeatureCollection")
    /\ dict_lookup members "features" = Some (JArr feats).

(** ** The files [create_demo_boundaries] writes *)

Definition json_point (p : coord) : json := JArr [JNum (fst p); JNum (snd p)].

Definition demo_zone_json : json :=
  JObj [ ("type", JStr "Feature");
         ("properties", JObj [("name", JStr "india_maritime_zone")]);
         ("geometry",
          JObj [ ("type", JStr "Polygon");
                 ("coordinates", JArr [JArr (map json_point demo_ring)]) ]) ]%string.

Definition demo_boundary_json : json :=
  JObj [ ("type", JStr "FeatureCollection");
         ("features",
          JArr [ JObj [ ("type", JStr "Feature");
                        ("properties",
                         JObj [("name", JStr "india_pakistan_maritime_boundary")]);
                        ("geometry",
                         JObj [ ("type", JStr "LineString");
                                ("coordinates",
                                 JArr (map json_point (coords demo_line))) ]) ] ]) ]%string.

(** Stand-ins for Shapely's two constructors on these files: a list of
    [x, y] pairs, and the outer ring of a polygon geometry. *)
Definition parse_point (v : json) : option coord :=
  match v with
  | JArr [JNum x; JNum y] => Some (x, y)
  | _ => None
  end.

Fixpoint parse_points (vs : list json) : option (list coord) :=
  match vs with
  | [] => Some []
  | v :: rest =>
      match parse_point v, parse_points rest with
      | Some p, Some ps => Some (p :: ps)
      | _, _ => None
      end
  end.

Definition demo_make_LineString (c : json) : PyError + LineString :=
  match c with
  | JArr items =>
      match parse_points items with
      | Some ps => inr {| coords := ps |}
      | None => inl LibraryError
      end
  | _ => inl LibraryError
  end.

Definition demo_shape (geom : json) : PyError + @polygon demo_geometry :=
  match py_getitem geom "coordinates" with
  | inr (JArr (JArr ring :: _)) =>
      match parse_points ring with
      | Some ps => inr ps
      | None => inl LibraryError
      end
  | _ => inl LibraryError
  end.

(** ** Further demonstration data *)

(** A quota of no call at all. *)
Definition quota0_config : Config :=
  {| CALL_COOLDOWN_SECONDS := 30; MAX_EMERGENCY_CALLS := 0 |}.

(** A second line, one degree west of the demonstration line, and the
    demonstration engine with both lines, in either order. *)
Definition west_line : LineString :=
  {| coords := [(67, 23); (67, 24)] |}.

Definition two_line_engine : @BoundaryCrossingEngine demo_geometry :=
  @_init_ demo_geometry demo_ring ([demo_line] ++ [west_line]) "demo"%string.

Definition two_line_engine_swapped : @BoundaryCrossingEngine demo_geometry :=
  @_init_ demo_geometry demo_ring [west_line; demo_line] "demo"%string.

(** A round of the test feed without noise. *)
Definition quiet_input (t : Q) : FeedInput :=
  {| lat_noise := 0; lon_noise := 0; feed_accuracy := 5; feed_time := t;
     feed_db_ok := true; feed_call_success := true; feed_commit_time := t + 1 |}.

Definition quiet_round (t : Q) : Round :=
  {| round_input := quiet_input t;
     round_dispatch :=
       {| alert_message := "alert"; twilio_outcome := None;
          call_log_ok := true; call_log_time := t + 1 |};
     round_gps_raises := false |}.

(** The same round with a library call of [process_gps] raising. *)
Definition raising_round (t : Q) : Round :=
  {| round_input := quiet_input t;
     round_dispatch :=
       {| alert_message := "alert"; twilio_outcome := None;
          call_log_ok := true; call_log_time := t + 1 |};
     round_gps_raises := true |}.

Definition fresh_testing_system : BoundaryTestingSystem :=
  {| running := true; scenario_index := 0; scenario_timer := 0 |}.

(** A call system without a Twilio client, and a dispatch. *)
Definition simulation_system : EmergencyCallSystem :=
  {| twilio_client := None |}.

Definition demo_dispatch : DispatchInput :=
  {| alert_message := "alert"; twilio_outcome := None; call_log_ok := true;
     call_log_time := 1011 |}.

(** The globals with the demonstration engine in place and the call
    system as line 477 builds it. *)
Definition module_globals : @Globals demo_geometry :=
  {| g_ENGINE := Some demo_engine;
     g_EMERGENCY_SYSTEM := EMERGENCY_SYSTEM;
     g_boundary_events := [];
     g_emergency_calls := [] |}.

(** The demonstration zone without any boundary line. *)
Definition no_line_engine : @BoundaryCrossingEngine demo_geometry :=
  @_init_ demo_geometry demo_ring [] "demo"%string.

(** A scenario table whose only entry lies at latitude 95. *)
Definition far_north_test_config : TestConfig :=
  {| TEST_INTERVAL := 2;
     TEST_SCENARIOS :=
       [ {| sc_name := "far_north"; sc_lat := 95; sc_lon := 69.0;
            sc_inside_boundary := false; sc_duration := 8 |} ] |}.

(** A boundary file that is a bare geometry, and a feature whose
    geometry is [null]. *)
Definition bare_line_members : list (string * json) :=
  [ ("type", JStr "LineString");
    ("coordinates", JArr (map json_point (coords demo_line))) ]%string.

Definition null_geometry_feature : list (string * json) :=
  [ ("type", JStr "Feature"); ("geometry", JNull) ]%string.

Definition collection (feats : list json) : json :=
  JObj [ ("type", JStr "FeatureCollection"); ("features", JArr feats) ]%string.

Definition demo_feature : json :=
  JObj [ ("type", JStr "Feature");
         ("geometry",
          JObj [ ("type", JStr "LineString");
                 ("coordinates", JArr (map json_point (coords demo_line))) ]) ]%string.

(** * Properties *)

(** ** Comparisons on [Q] *)

Lemma Qlt_bool_true (x y : Q) : Qlt_bool x y = true <-> x < y.
Proof.
  unfold Qlt_bool. rewrite negb_true_iff.
  split; intro H.
  - apply Qnot_le_lt. intro Hle. apply Qle_bool_iff in Hle. congruence.
  - destruct (Qle_bool y x) eqn:E; [|reflexivity].
    apply Qle_bool_iff in E. exfalso. apply (Qlt_not_le _ _ H E).
Qed.

Lemma Qlt_bool_false (x y : Q) : Qlt_bool x y = false <-> y <= x.
Proof.
  unfold Qlt_bool. rewrite negb_false_iff. apply Qle_bool_iff.
Qed.

Lemma Qle_bool_false (x y : Q) : Qle_bool x y = false <-> y < x.
Proof.
  rewrite <- Qlt_bool_true. unfold Qlt_bool.
  destruct (Qle_bool x y); simpl; intuition congruence.
Qed.

(** Case analysis on every remaining conditional of the goal. *)
Ltac break_if :=
  repeat match goal with
    | |- context [if ?c then _ else _] => destruct c; simpl
    end.

Section EngineProperties.

Context {G : Geometry}.

(** ** The throttle *)

(** The decision in closed form: quota left, and the cooldown test passed
    or skipped because the stored time is falsy. *)
Lemma should_make_emergency_call_eq (cfg : Config)
  (self : BoundaryCrossingEngine) (now : Q) :
  _should_make_emergency_call cfg self now
  = (calls_for_current_crossing self <? MAX_EMERGENCY_CALLS cfg)%Z
    && match last_call_time self with
       | None => true
       | Some t => Qeq_bool t 0
                   || Qle_bool (CALL_COOLDOWN_SECONDS cfg) (now - t)
       end.
Proof.
  unfold _should_make_emergency_call, py_truthy, Qlt_bool.
  rewrite Z.ltb_antisym.
  destruct (MAX_EMERGENCY_CALLS cfg <=? calls_for_current_crossing self)%Z;
    simpl; [reflexivity|].
  destruct (last_call_time self) as [t|]; simpl; [|reflexivity].
  destruct (Qeq_bool t 0); simpl; [reflexivity|].
  destruct (Qle_bool (CALL_COOLDOWN_SECONDS cfg) (now - t)); reflexivity.
Qed.

(** Whenever the stored time is not the falsy [0.0], the code decides as
    the rule says. *)
Lemma should_make_emergency_call_rule (cfg : Config)
  (self : BoundaryCrossingEngine) (now : Q) :
  (forall t, last_call_time self = Some t -> ~ t == 0) ->
  _should_make_emergency_call cfg self now = mayEscalate_rule cfg self now.
Proof.
  intro Hnz. rewrite should_make_emergency_call_eq. unfold mayEscalate_rule.
  destruct (last_call_time self) as [t|]; [|reflexivity].
  destruct (Qeq_bool t 0) eqn:E; [|reflexivity].
  apply Qeq_bool_iff in E. exfalso. exact (Hnz t eq_refl E).
Qed.

(** Once open, the throttle stays open as time passes, as long as the
    counter and the stored time are left alone. *)
Lemma should_make_emergency_call_mono (cfg : Config)
  (self self' : BoundaryCrossingEngine) (now now' : Q) :
  calls_for_current_crossing self' = calls_for_current_crossing self ->
  last_call_time self' = last_call_time self ->
  now <= now' ->
  _should_make_emergency_call cfg self now = true ->
  _should_make_emergency_call cfg self' now' = true.
Proof.
  intros Hc Hl Hle. rewrite !should_make_emergency_call_eq, Hc, Hl.
  rewrite !andb_true_iff. intros [Hq Ht]. split; [exact Hq|].
  destruct (last_call_time self) as [t|]; [|reflexivity].
  apply orb_true_iff in Ht. apply orb_true_iff.
  destruct Ht as [Ht|Ht]; [left; exact Ht|right].
  apply Qle_bool_iff in Ht. apply Qle_bool_iff. lra.
Qed.

(** ** [process_gps], field by field *)

Lemma process_gps_engine (cfg : Config) (self : BoundaryCrossingEngine)
  (table : list BoundaryEvent) (lat lon accuracy t : Q) (db_ok : bool) :
  let inside := contains (india_polygon self) (lon, lat) in
  fst (fst (process_gps cfg self table lat lon accuracy t db_ok))
  = set_current_inside_boundary
      (set_last_inside_boundary (snd (detect_crossing self inside)) inside)
      inside.
Proof.
  unfold process_gps, detect_crossing, _log_boundary_event.
  destruct (contains (india_polygon self) (lon, lat)),
    (last_inside_boundary self), db_ok; reflexivity.
Qed.

Lemma process_gps_requires (cfg : Config) (self : BoundaryCrossingEngine)
  (table : list BoundaryEvent) (lat lon accuracy t : Q) (db_ok : bool) :
  let out := process_gps cfg self table lat lon accuracy t db_ok in
  requires_emergency_call (snd out)
  = last_inside_boundary self
    && negb (contains (india_polygon self) (lon, lat))
    && _should_make_emergency_call cfg (fst (fst out)) t.
Proof.
  unfold process_gps, detect_crossing, _log_boundary_event.
  destruct (contains (india_polygon self) (lon, lat)),
    (last_inside_boundary self), db_ok; simpl; break_if; reflexivity.
Qed.

End EngineProperties.

Section CallerProperties.

Context {G : Geometry}.

(** The throttle reads two attributes only. *)
Lemma should_make_emergency_call_ext (cfg : Config)
  (self self' : BoundaryCrossingEngine) (now : Q) :
  calls_for_current_crossing self' = calls_for_current_crossing self ->
  last_call_time self' = last_call_time self ->
  _should_make_emergency_call cfg self' now
  = _should_make_emergency_call cfg self now.
Proof.
  intros Hc Hl. rewrite !should_make_emergency_call_eq, Hc, Hl. reflexivity.
Qed.

(** What [process_gps] leaves in the engine. *)
Lemma process_gps_frame (cfg : Config) (self : BoundaryCrossingEngine)
  (table : list BoundaryEvent) (lat lon accuracy t : Q) (db_ok : bool) :
  let inside := contains (india_polygon self) (lon, lat) in
  let self' := fst (fst (process_gps cfg self table lat lon accuracy t db_ok)) in
  india_polygon self' = india_polygon self
  /\ boundary_lines self' = boundary_lines self
  /\ last_call_time self' = last_call_time self
  /\ last_inside_boundary self' = inside
  /\ calls_for_current_crossing self'
     = (if Bool.eqb inside (last_inside_boundary self)
        then calls_for_current_crossing self else 0%Z)
  /\ boundary_crossings self'
     = (if Bool.eqb inside (last_inside_boundary self)
        then boundary_crossings self else boundary_crossings self + 1)%Z.
Proof.
  cbv zeta. rewrite process_gps_engine. cbv zeta. unfold detect_crossing.
  destruct (contains (india_polygon self) (lon, lat)),
    (last_inside_boundary self); simpl; repeat split; reflexivity.
Qed.

(** What the caller's commit does to the engine and to the record. *)
Lemma handle_emergency_call_spec (mark : bool) (engine : BoundaryCrossingEngine)
  (result : Result) (call_success : bool) (commit_time : Q) :
  let out := handle_emergency_call mark engine result call_success commit_time in
  let committed := requires_emergency_call result && call_success in
  requires_emergency_call (snd out) = requires_emergency_call result
  /\ india_polygon (fst out) = india_polygon engine
  /\ boundary_lines (fst out) = boundary_lines engine
  /\ last_inside_boundary (fst out) = last_inside_boundary engine
  /\ boundary_crossings (fst out) = boundary_crossings engine
  /\ calls_for_current_crossing (fst out)
     = (calls_for_current_crossing engine + (if committed then 1 else 0))%Z
  /\ last_call_time (fst out)
     = (if committed then Some commit_time else last_call_time engine).
Proof.
  cbv zeta. unfold handle_emergency_call.
  destruct (requires_emergency_call result) eqn:Hr, call_success, mark; simpl;
    rewrite ?Hr, ?Z.add_0_r; repeat split; reflexivity.
Qed.

Lemma observe_rejected (cfg : Config) (w : World) (o : Observation) :
  reaches_engine o = false ->
  observe cfg w o = (w, Response_400 "Invalid coordinates"%string).
Proof.
  unfold reaches_engine, observe, gps_endpoint.
  destruct (obs_caller o); [|discriminate].
  rewrite negb_false_iff. intros ->. reflexivity.
Qed.

(** One observation that reaches the engine, summarised on the attributes
    the throttle and the state machine read. *)
Lemma observe_step (cfg : Config) (w : World) (o : Observation) :
  reaches_engine o = true ->
  let e := ENGINE w in
  let inside := contains (india_polygon e) (obs_lon o, obs_lat o) in
  let e1 := fst (fst (process_gps cfg e (boundary_events w) (obs_lat o)
                        (obs_lon o) (obs_accuracy o) (obs_time o) (obs_db_ok o))) in
  let e' := ENGINE (fst (observe cfg w o)) in
  let a := authorized (snd (observe cfg w o)) in
  let committed := a && obs_call_success o in
  a = last_inside_boundary e && negb inside
      && _should_make_emergency_call cfg e1 (obs_time o)
  /\ india_polygon e' = india_polygon e
  /\ last_inside_boundary e' = inside
  /\ calls_for_current_crossing e'
     = (calls_for_current_crossing e1 + (if committed then 1 else 0))%Z
  /\ last_call_time e'
     = (if committed then Some (obs_commit_time o) else last_call_time e).
Proof.
  intro Hreach. cbv zeta.
  pose proof (process_gps_requires cfg (ENGINE w) (boundary_events w)
                (obs_lat o) (obs_lon o) (obs_accuracy o)
                (obs_time o) (obs_db_ok o)) as Hreq.
  pose proof (process_gps_frame cfg (ENGINE w) (boundary_events w)
                (obs_lat o) (obs_lon o) (obs_accuracy o)
                (obs_time o) (obs_db_ok o)) as Hfr.
  cbv zeta in Hreq, Hfr.
  unfold reaches_engine in Hreach. unfold observe, gps_endpoint, test_iteration.
  destruct (process_gps cfg (ENGINE w) (boundary_events w) (obs_lat o)
              (obs_lon o) (obs_accuracy o) (obs_time o) (obs_db_ok o))
    as [[e1 tb1] r1].
  simpl in Hreq, Hfr. destruct Hfr as (Hp & _ & Hl & Hi & _ & _).
  destruct (obs_caller o).
  - apply negb_true_iff in Hreach. rewrite Hreach.
    pose proof (handle_emergency_call_spec true e1 r1 (obs_call_success o)
                  (obs_commit_time o)) as Hh.
    cbv zeta in Hh.
    destruct (handle_emergency_call true e1 r1 (obs_call_success o)
                (obs_commit_time o)) as [e2 r2].
    simpl in *. destruct Hh as (Ha & Hp2 & _ & Hi2 & _ & Hc2 & Hl2).
    rewrite Ha, Hreq, Hp2, Hp, Hi2, Hi, Hc2, Hl2, Hreq, Hl.
    repeat split; reflexivity.
  - pose proof (handle_emergency_call_spec false e1 r1 (obs_call_success o)
                  (obs_commit_time o)) as Hh.
    cbv zeta in Hh.
    destruct (handle_emergency_call false e1 r1 (obs_call_success o)
                (obs_commit_time o)) as [e2 r2].
    simpl in *. destruct Hh as (Ha & Hp2 & _ & Hi2 & _ & Hc2 & Hl2).
    rewrite Ha, Hreq, Hp2, Hp, Hi2, Hi, Hc2, Hl2, Hreq, Hl.
    repeat split; reflexivity.
Qed.

End CallerProperties.

Section CrossingStateMachine.

Context {G : Geometry}.

(** C3. On every observation, when the computed containment differs from
    the stored one the record reports a crossing, with direction entered
    when newly inside and exited otherwise, the crossing count grows by
    exactly one and the stored containment becomes the new value; when
    they are equal no crossing is reported, the direction is none and the
    count is unchanged. *)
Theorem process_gps_transition (cfg : Config) (self : BoundaryCrossingEngine)
  (table : list BoundaryEvent) (lat lon accuracy t : Q) (db_ok : bool) :
  let inside := contains (india_polygon self) (lon, lat) in
  let out := process_gps cfg self table lat lon accuracy t db_ok in
  let self' := fst (fst out) in
  let r := snd out in
  inside_boundary r = inside
  /\ (inside <> last_inside_boundary self ->
      boundary_crossed r = true
      /\ crossing_direction r
         = Some (if inside then ENTERED_INDIAN_WATERS else EXITED_INDIAN_WATERS)
      /\ boundary_crossings self' = (boundary_crossings self + 1)%Z
      /\ total_crossings r = (boundary_crossings self + 1)%Z
      /\ last_inside_boundary self' = inside)
  /\ (inside = last_inside_boundary self ->
      boundary_crossed r = false
      /\ crossing_direction r = None
      /\ boundary_crossings self' = boundary_crossings self
      /\ total_crossings r = boundary_crossings self
      /\ last_inside_boundary self' = inside).
Proof.
  cbv zeta.
  unfold process_gps, detect_crossing, _log_boundary_event.
  destruct (contains (india_polygon self) (lon, lat)) eqn:Hin,
    (last_inside_boundary self) eqn:Hlast, db_ok; simpl; break_if;
    (split; [reflexivity|]);
    (split; intro Hne; [try congruence | try discriminate]);
    repeat split; reflexivity.
Qed.

(** C4. The counter of calls for the current crossing is set to 0 by every
    detected transition, into the region and out of it alike. An
    observation without a transition leaves it as it was, in [process_gps]
    and in the whole call of either caller. So after an observation that
    re-enters the region, served through the handler, and a following
    one that leaves it, the counter is 0 whatever it was before. *)
Theorem calls_reset_on_every_transition (cfg : Config)
  (self : BoundaryCrossingEngine) (table : list BoundaryEvent)
  (lat lon accuracy t : Q) (db_ok : bool) :
  let inside := contains (india_polygon self) (lon, lat) in
  let self' := fst (fst (process_gps cfg self table lat lon accuracy t db_ok)) in
  (inside <> last_inside_boundary self ->
   calls_for_current_crossing self' = 0%Z)
  /\ (inside = last_inside_boundary self ->
      calls_for_current_crossing self' = calls_for_current_crossing self)
  /\ (forall (w : World) (o : Observation),
        contains (india_polygon (ENGINE w)) (obs_lon o, obs_lat o)
        = last_inside_boundary (ENGINE w) ->
        calls_for_current_crossing (ENGINE (fst (observe cfg w o)))
        = calls_for_current_crossing (ENGINE w))
  /\ (forall (w : World) (enter leave : Observation),
        last_inside_boundary (ENGINE w) = false ->
        invalid_coordinates (obs_lat enter) (obs_lon enter) = false ->
        contains (india_polygon (ENGINE w)) (obs_lon enter, obs_lat enter) = true ->
        contains (india_polygon (ENGINE w)) (obs_lon leave, obs_lat leave) = false ->
        let w1 := fst (gps_endpoint cfg w enter) in
        let e2 := fst (fst (process_gps cfg (ENGINE w1) (boundary_events w1)
                              (obs_lat leave) (obs_lon leave) (obs_accuracy leave)
                              (obs_time leave) (obs_db_ok leave))) in
        calls_for_current_crossing (ENGINE w1) = 0%Z
        /\ last_inside_boundary (ENGINE w1) = true
        /\ calls_for_current_crossing e2 = 0%Z
        /\ last_inside_boundary e2 = false).
Proof.
  cbv zeta. split; [|split; [|split]].
  - rewrite process_gps_engine. cbv zeta. unfold detect_crossing.
    destruct (contains (india_polygon self) (lon, lat)),
      (last_inside_boundary self); simpl; congruence.
  - rewrite process_gps_engine. cbv zeta. unfold detect_crossing.
    destruct (contains (india_polygon self) (lon, lat)),
      (last_inside_boundary self); simpl; congruence.
  - intros w o Hsame.
    destruct (reaches_engine o) eqn:Hr;
      [|rewrite (observe_rejected cfg w o Hr); reflexivity].
    pose proof (observe_step cfg w o Hr) as Hs. cbv zeta in Hs.
    destruct Hs as (Ha & _ & _ & Hc & _).
    pose proof (process_gps_frame cfg (ENGINE w) (boundary_events w)
                  (obs_lat o) (obs_lon o) (obs_accuracy o) (obs_time o)
                  (obs_db_ok o)) as Hfr.
    cbv zeta in Hfr. destruct Hfr as (_ & _ & _ & _ & Hc1 & _).
    rewrite Hsame in Ha, Hc1. rewrite Bool.eqb_reflx in Hc1.
    rewrite andb_negb_r in Ha. simpl in Ha.
    rewrite Hc, Ha, Hc1. simpl. apply Z.add_0_r.
  - intros w enter leave Hlast Hvalid Hin Hout.
    unfold gps_endpoint. rewrite Hvalid.
    pose proof (process_gps_requires cfg (ENGINE w) (boundary_events w)
                  (obs_lat enter) (obs_lon enter) (obs_accuracy enter)
                  (obs_time enter) (obs_db_ok enter)) as Hreq.
    pose proof (process_gps_engine cfg (ENGINE w) (boundary_events w)
                  (obs_lat enter) (obs_lon enter) (obs_accuracy enter)
                  (obs_time enter) (obs_db_ok enter)) as Heng.
    cbv zeta in Hreq, Heng. rewrite Hlast in Hreq. simpl in Hreq.
    destruct (process_gps cfg (ENGINE w) (boundary_events w) (obs_lat enter)
                (obs_lon enter) (obs_accuracy enter) (obs_time enter)
                (obs_db_ok enter)) as [[e1 tb1] r1].
    simpl in Hreq, Heng. unfold handle_emergency_call. rewrite Hreq. simpl.
    rewrite process_gps_engine. cbv zeta. subst e1.
    unfold detect_crossing. rewrite Hin, Hlast. simpl. rewrite Hout. simpl.
    repeat split; reflexivity.
Qed.

(** C2, as the code has it. The throttle is consulted only on the
    observation that detects the transition out of the region: the record
    authorises a call exactly when the stored containment was inside, the
    computed one is outside, and the throttle allows it on the state left
    by the transition. On an observation that finds the vessel still
    outside, no call is authorised, whatever the throttle would say. *)
Theorem escalation_only_on_exit_edge (cfg : Config)
  (self : BoundaryCrossingEngine) (table : list BoundaryEvent)
  (lat lon accuracy t : Q) (db_ok : bool) :
  let inside := contains (india_polygon self) (lon, lat) in
  let out := process_gps cfg self table lat lon accuracy t db_ok in
  requires_emergency_call (snd out)
  = last_inside_boundary self && negb inside
    && _should_make_emergency_call cfg (fst (fst out)) t
  /\ (last_inside_boundary self = false ->
      requires_emergency_call (snd out) = false).
Proof.
  cbv zeta. split.
  - apply process_gps_requires.
  - intro Hlast.
    pose proof (process_gps_requires cfg self table lat lon accuracy t db_ok) as H.
    cbv zeta in H. rewrite H, Hlast. reflexivity.
Qed.

End CrossingStateMachine.

Section Escalation.

Context {G : Geometry}.

(** C6. A position whose latitude is outside [-90, 90] or whose longitude
    is outside [-180, 180] is answered by the route with the error
    "Invalid coordinates" (status 400) and nothing else happens: the
    engine and the event table are the ones before the call, so the
    position never reached [process_gps]. *)
Theorem gps_endpoint_rejects_out_of_range (cfg : Config) (w : World)
  (o : Observation) :
  obs_lat o < -90 \/ 90 < obs_lat o \/ obs_lon o < -180 \/ 180 < obs_lon o ->
  gps_endpoint cfg w o = (w, Response_400 "Invalid coordinates"%string).
Proof.
  intro Hout. unfold gps_endpoint.
  assert (Hinv : invalid_coordinates (obs_lat o) (obs_lon o) = true).
  { unfold invalid_coordinates.
    apply orb_true_iff.
    destruct Hout as [H|[H|[H|H]]]; apply Qle_bool_false in H;
      rewrite H; simpl; rewrite ?andb_false_r; auto. }
  rewrite Hinv. reflexivity.
Qed.

(** ** Runs of observations *)

Lemma serve_app (cfg : Config) (os1 os2 : list Observation) (w : World) :
  serve cfg w (os1 ++ os2)
  = (fst (serve cfg (fst (serve cfg w os1)) os2),
     snd (serve cfg w os1) ++ snd (serve cfg (fst (serve cfg w os1)) os2)).
Proof.
  revert w. induction os1 as [|o os1 IH]; intro w; simpl.
  - destruct (serve cfg w os2); reflexivity.
  - destruct (observe cfg w o) as [w1 r]. rewrite IH.
    destruct (serve cfg w1 os1) as [w2 rs]. simpl. reflexivity.
Qed.

Lemma serve_length (cfg : Config) (os : list Observation) (w : World) :
  List.length (snd (serve cfg w os)) = List.length os.
Proof.
  revert w. induction os as [|o os IH]; intro w; simpl; [reflexivity|].
  destruct (observe cfg w o) as [w1 r]. specialize (IH w1).
  destruct (serve cfg w1 os) as [w2 rs]. simpl in *. congruence.
Qed.

Lemma observe_polygon (cfg : Config) (w : World) (o : Observation) :
  india_polygon (ENGINE (fst (observe cfg w o))) = india_polygon (ENGINE w).
Proof.
  destruct (reaches_engine o) eqn:Hr.
  - pose proof (observe_step cfg w o Hr) as Hs. cbv zeta in Hs. tauto.
  - rewrite (observe_rejected cfg w o Hr). reflexivity.
Qed.

Lemma serve_polygon (cfg : Config) (os : list Observation) (w : World) :
  india_polygon (ENGINE (fst (serve cfg w os))) = india_polygon (ENGINE w).
Proof.
  revert w. induction os as [|o os IH]; intro w; simpl; [reflexivity|].
  pose proof (observe_polygon cfg w o) as Hp.
  destruct (observe cfg w o) as [w1 r]. specialize (IH w1).
  destruct (serve cfg w1 os) as [w2 rs]. simpl in *. congruence.
Qed.

(** In a run of observations that are all outside the region, only the
    one that leaves the region can be authorised, and only if the quota
    is positive. *)
Lemma outside_run_count (cfg : Config) (run : list Observation) (w : World) :
  Forall (fun o => contains (india_polygon (ENGINE w)) (obs_lon o, obs_lat o)
                   = false) run ->
  (count_authorized (snd (serve cfg w run))
   <= if last_inside_boundary (ENGINE w) && (0 <? MAX_EMERGENCY_CALLS cfg)%Z
      then 1 else 0)%nat.
Proof.
  revert w. induction run as [|o run IH]; intros w Hall; simpl.
  - unfold count_authorized. simpl. lia.
  - inversion Hall as [|o' run' Ho Hrest]; subst.
    destruct (reaches_engine o) eqn:Hr.
    + pose proof (observe_step cfg w o Hr) as Hs. cbv zeta in Hs.
      destruct Hs as (Ha & Hp & Hi & _ & _).
      pose proof (process_gps_frame cfg (ENGINE w) (boundary_events w)
                    (obs_lat o) (obs_lon o) (obs_accuracy o) (obs_time o)
                    (obs_db_ok o)) as Hfr.
      cbv zeta in Hfr. destruct Hfr as (_ & _ & _ & _ & Hc1 & _).
      rewrite Ho in Ha, Hi, Hc1. simpl in Ha.
      destruct (observe cfg w o) as [w1 r]. simpl in *.
      assert (Hall1 : Forall (fun o0 => contains (india_polygon (ENGINE w1))
                                          (obs_lon o0, obs_lat o0) = false) run).
      { rewrite Hp. exact Hrest. }
      specialize (IH w1 Hall1). rewrite Hi in IH. simpl in IH.
      destruct (serve cfg w1 run) as [w2 rs]. simpl in *.
      unfold count_authorized in *. simpl.
      destruct (authorized r); simpl; [|lia].
      symmetry in Ha. apply andb_true_iff in Ha. destruct Ha as [Ha Hthr].
      rewrite andb_true_r in Ha. rewrite Ha in *. simpl in Hc1.
      rewrite should_make_emergency_call_eq in Hthr.
      apply andb_true_iff in Hthr. destruct Hthr as [Hq _].
      rewrite Hc1 in Hq. rewrite Hq. simpl. lia.
    + rewrite (observe_rejected cfg w o Hr).
      specialize (IH w Hrest).
      destruct (serve cfg w run) as [w2 rs]. simpl in *.
      unfold count_authorized in *. simpl. exact IH.
Qed.


(** C8. Take any sequence of observations and any stretch of it whose
    observations are all outside the region. The number of responses of
    that stretch that authorise an escalation is at most
    MAX_EMERGENCY_CALLS, whatever the times and the outcomes of the
    calls. *)
Theorem escalations_per_outside_episode (cfg : Config) (w0 : World)
  (pre run post : list Observation) :
  (0 <= MAX_EMERGENCY_CALLS cfg)%Z ->
  Forall (fun o => contains (india_polygon (ENGINE w0)) (obs_lon o, obs_lat o)
                   = false) run ->
  let rs := snd (serve cfg w0 (pre ++ run ++ post)) in
  (Z.of_nat (count_authorized (firstn (List.length run)
                                 (skipn (List.length pre) rs)))
   <= MAX_EMERGENCY_CALLS cfg)%Z.
Proof.
  intros Hmax Hall. cbv zeta.
  rewrite serve_app. simpl snd.
  rewrite <- (serve_length cfg pre w0) at 1.
  rewrite skipn_app, skipn_all, Nat.sub_diag. simpl.
  rewrite serve_app. simpl snd.
  set (w1 := fst (serve cfg w0 pre)).
  rewrite <- (serve_length cfg run w1) at 1.
  rewrite firstn_app, firstn_all, Nat.sub_diag. simpl. rewrite app_nil_r.
  assert (Hall1 : Forall (fun o => contains (india_polygon (ENGINE w1))
                                     (obs_lon o, obs_lat o) = false) run).
  { unfold w1. rewrite serve_polygon. exact Hall. }
  pose proof (outside_run_count cfg run w1 Hall1) as Hcount.
  destruct (last_inside_boundary (ENGINE w1)); simpl in Hcount; [|lia].
  destruct (0 <? MAX_EMERGENCY_CALLS cfg)%Z eqn:Hq; [|lia].
  apply Z.ltb_lt in Hq. lia.
Qed.

End Escalation.

(** ** Distance to the boundary lines *)

Lemma min_of_ext (m : pyfloat) (P P' : Q -> Prop) :
  (forall x, P x <-> P' x) -> min_of m P -> min_of m P'.
Proof.
  intros Hext. destruct m as [d|]; simpl.
  - intros [Hd Hle]. split; [apply Hext; exact Hd|].
    intros x Hx. apply Hle, Hext, Hx.
  - intros Hnone x Hx. apply (Hnone x), Hext, Hx.
Qed.

Lemma min_of_step (m : pyfloat) (P : Q -> Prop) (x : Q) :
  min_of m P -> min_of (py_min2 m (Fin x)) (fun y => P y \/ y = x).
Proof.
  unfold py_min2. destruct m as [d|]; simpl.
  - intros [Hd Hle]. destruct (Qlt_bool x d) eqn:E; simpl.
    + apply Qlt_bool_true in E. split; [right; reflexivity|].
      intros y [Hy| ->]; [|apply Qle_refl].
      specialize (Hle y Hy). lra.
    + apply Qlt_bool_false in E. split; [left; exact Hd|].
      intros y [Hy| ->]; [apply Hle; exact Hy|exact E].
  - intros Hnone. split; [right; reflexivity|].
    intros y [Hy| ->]; [destruct (Hnone y Hy)|apply Qle_refl].
Qed.

Section Distance.

Context {G : Geometry}.

Variables lat lon : Q.

Lemma segment_step_min (line : LineString) (m : pyfloat) (P : Q -> Prop)
  (i : nat) :
  min_of m P ->
  min_of (segment_step lat lon line m i)
    (fun y => P y \/ y = vertex_dist lat lon line i \/ y = vertex_dist lat lon line (i + 1)).
Proof.
  intro Hm. unfold segment_step, py_min3. cbv zeta.
  eapply min_of_ext; [|apply min_of_step, min_of_step, Hm].
  intro x. unfold vertex_dist. simpl. tauto.
Qed.

(** After [j] rounds of the inner loop the vertices 0..j have been seen,
    none when [j = 0]. *)
Lemma line_loop_rounds (line : LineString) (m : pyfloat) (P : Q -> Prop)
  (j : nat) :
  min_of m P ->
  min_of (fold_left (segment_step lat lon line) (seq 0 j) m)
    (fun y => P y \/ exists i, (1 <= j)%nat /\ (i <= j)%nat
                               /\ y = vertex_dist lat lon line i).
Proof.
  intro Hm. induction j as [|j IH].
  - simpl. eapply min_of_ext; [|exact Hm].
    intro x. split; [tauto|]. intros [H|(i & H & _)]; [exact H|lia].
  - rewrite seq_S, fold_left_app. simpl.
    eapply min_of_ext; [|apply segment_step_min, IH].
    intro x. split.
    + intros [[H|(i & Hj & Hi & Hx)]|[H|H]].
      * left; exact H.
      * right. exists i. repeat split; [lia|lia|exact Hx].
      * right. exists j. repeat split; [lia|lia|exact H].
      * right. exists (j + 1)%nat. repeat split; [lia|lia|exact H].
    + intros [H|(i & _ & Hi & Hx)]; [left; left; exact H|].
      destruct (Nat.eq_dec i (j + 1)) as [->|Hne]; [right; right; exact Hx|].
      destruct (Nat.eq_dec i j) as [->|Hne']; [right; left; exact Hx|].
      left. right. exists i. repeat split; [lia|lia|exact Hx].
Qed.

Lemma In_vertex_dist (line : LineString) (y : Q) :
  In y (map (fun p => geodesic (lat, lon) (snd p, fst p)) (coords line))
  <-> exists i, (i < List.length (coords line))%nat /\ y = vertex_dist lat lon line i.
Proof.
  unfold vertex_dist. split.
  - intro Hin. apply in_map_iff in Hin. destruct Hin as (p & Hy & Hp).
    destruct (In_nth _ _ (0, 0) Hp) as (i & Hi & Hnth).
    exists i. split; [exact Hi|]. unfold coord in *. rewrite Hnth.
    symmetry. exact Hy.
  - intros (i & Hi & ->). apply in_map_iff.
    exists (nth i (coords line) (0, 0)). split; [reflexivity|].
    apply nth_In. exact Hi.
Qed.

(** One line: every vertex of a line that is empty or has at least two
    coordinates is taken into the minimum. *)
Lemma line_loop_min (line : LineString) (m : pyfloat) (P : Q -> Prop) :
  List.length (coords line) <> 1%nat ->
  min_of m P ->
  min_of (line_loop lat lon m line)
    (fun y => P y
              \/ In y (map (fun p => geodesic (lat, lon) (snd p, fst p))
                         (coords line))).
Proof.
  intros Hlen Hm. unfold line_loop.
  eapply min_of_ext; [|apply line_loop_rounds, Hm].
  intro x. rewrite In_vertex_dist. split.
  - intros [H|(i & Hj & Hi & Hx)]; [left; exact H|].
    right. exists i. split; [lia|exact Hx].
  - intros [H|(i & Hi & Hx)]; [left; exact H|].
    right. exists i. repeat split; [lia|lia|exact Hx].
Qed.

Lemma lines_loop_min (lines : list LineString) (m : pyfloat) (P : Q -> Prop) :
  Forall (fun line => List.length (coords line) <> 1%nat) lines ->
  min_of m P ->
  min_of (fold_left (line_loop lat lon) lines m)
    (fun y => P y
              \/ In y (flat_map
                         (fun line => map (fun p => geodesic (lat, lon) (snd p, fst p))
                                        (coords line)) lines)).
Proof.
  intro Hall. revert m P.
  induction Hall as [|line lines Hlen Hall IH]; intros m P Hm; simpl.
  - eapply min_of_ext; [|exact Hm]. intro x. tauto.
  - eapply min_of_ext; [|apply IH, line_loop_min; [exact Hlen|exact Hm]].
    intro x. simpl. rewrite in_app_iff. tauto.
Qed.

(** C5. When every boundary line is empty or has at least two coordinates
    (Shapely builds no other line), the reported distance is the minimum,
    over all lines and all their vertices, of the distance [geodesic]
    gives from the position to the vertex; with no boundary line at all,
    and whenever there is no vertex, it is 0. *)
Theorem boundary_distance_is_vertex_minimum (self : BoundaryCrossingEngine) :
  Forall (fun line => List.length (coords line) <> 1%nat) (boundary_lines self) ->
  (vertex_distances self lat lon <> [] ->
   is_minimum (_calculate_boundary_distance self lat lon)
     (vertex_distances self lat lon))
  /\ (vertex_distances self lat lon = [] ->
      _calculate_boundary_distance self lat lon = 0)
  /\ (boundary_lines self = [] ->
      _calculate_boundary_distance self lat lon = 0).
Proof.
  intro Hall.
  assert (Hmin : min_of (fold_left (line_loop lat lon) (boundary_lines self) Inf)
                   (fun y => In y (vertex_distances self lat lon))).
  { eapply min_of_ext;
      [|apply (lines_loop_min (boundary_lines self) Inf (fun _ => False) Hall)].
    - intro x. unfold vertex_distances. tauto.
    - simpl. intros x H. exact H. }
  unfold _calculate_boundary_distance.
  destruct (fold_left (line_loop lat lon) (boundary_lines self) Inf) as [d|];
    simpl in Hmin.
  - split; [intros _; exact Hmin|]. split.
    + intro Hnil. rewrite Hnil in Hmin. destruct Hmin as [[] _].
    + intro Hnil. unfold vertex_distances in Hmin. rewrite Hnil in Hmin.
      destruct Hmin as [[] _].
  - split; [|split; reflexivity].
    intro Hne. destruct (vertex_distances self lat lon) as [|x xs];
      [congruence|]. destruct (Hmin x). left. reflexivity.
Qed.

End Distance.

Section ThreadProperties.

Context {G : Geometry}.

(** A call that runs alone goes through [process_gps] in eight steps. *)
Lemma run_call (cfg : Config) (w : World) (o : Observation) :
  let out := run cfg call_steps (call o) w in
  pc (fst out) = Returned
  /\ f_result (fst out) = Some (snd (atomic_process_gps cfg w o))
  /\ snd out = fst (atomic_process_gps cfg w o).
Proof.
  cbv zeta.
  destruct w as [[poly lines sid cur last crossings stamp calls] table].
  destruct o as [who lat lon accuracy t db_ok success commit].
  unfold call_steps, atomic_process_gps, process_gps, detect_crossing,
    _log_boundary_event, call.
  cbn [run step pc ENGINE boundary_events india_polygon obs_lat obs_lon f_obs].
  generalize (_calculate_boundary_distance
                {| india_polygon := poly; boundary_lines := lines;
                   session_id := sid; current_inside_boundary := cur;
                   last_inside_boundary := last; boundary_crossings := crossings;
                   last_call_time := stamp; calls_for_current_crossing := calls |}
                lat lon) as d.
  intro d.
  destruct (contains poly (lon, lat)), last, db_ok;
    lazy -[_should_make_emergency_call Z.add List.app List.length Z.of_nat py_int];
    repeat match goal with
      | |- context [_should_make_emergency_call ?c ?e ?t] =>
          destruct (_should_make_emergency_call c e t)
      end;
    repeat split; reflexivity.
Qed.

Lemma interleave_first (cfg : Config) (n : nat) (m : Machine) :
  interleave cfg (repeat First n) m
  = {| thread1 := fst (run cfg n (thread1 m) (shared m));
       thread2 := thread2 m;
       shared := snd (run cfg n (thread1 m) (shared m)) |}.
Proof.
  unfold interleave. revert m. induction n as [|n IH]; intro m; simpl.
  - destruct m; reflexivity.
  - rewrite IH. unfold machine_step.
    destruct (step cfg (thread1 m) (shared m)) as [f w]. reflexivity.
Qed.

Lemma interleave_second (cfg : Config) (n : nat) (m : Machine) :
  interleave cfg (repeat Second n) m
  = {| thread1 := thread1 m;
       thread2 := fst (run cfg n (thread2 m) (shared m));
       shared := snd (run cfg n (thread2 m) (shared m)) |}.
Proof.
  unfold interleave. revert m. induction n as [|n IH]; intro m; simpl.
  - destruct m; reflexivity.
  - rewrite IH. unfold machine_step.
    destruct (step cfg (thread2 m) (shared m)) as [f w]. reflexivity.
Qed.

Lemma interleave_app (cfg : Config) (s1 s2 : list ThreadId) (m : Machine) :
  interleave cfg (s1 ++ s2) m = interleave cfg s2 (interleave cfg s1 m).
Proof. unfold interleave. apply fold_left_app. Qed.

Lemma atomic_process_gps_engine (cfg : Config) (w : World) (o : Observation) :
  ENGINE (fst (atomic_process_gps cfg w o)) = engine_after_process_gps cfg w o.
Proof.
  unfold atomic_process_gps, engine_after_process_gps.
  destruct (process_gps cfg (ENGINE w) (boundary_events w) (obs_lat o)
              (obs_lon o) (obs_accuracy o) (obs_time o) (obs_db_ok o))
    as [[e table] r].
  reflexivity.
Qed.

(** C9, as the code has it. [process_gps] takes no lock, so nothing in it
    makes a call indivisible. When the two calls do not overlap (the
    first runs to its end before the second starts) each has the effect
    of [process_gps] taken as one step on the state the other left, and
    the crossing count grows by one for each change of containment, no
    more and no less. *)
Theorem serial_calls_are_atomic (cfg : Config) (w : World)
  (o1 o2 : Observation) :
  let m := interleave cfg serial_schedule (start w o1 o2) in
  let a1 := atomic_process_gps cfg w o1 in
  let a2 := atomic_process_gps cfg (fst a1) o2 in
  let inside1 := contains (india_polygon (ENGINE w)) (obs_lon o1, obs_lat o1) in
  let inside2 := contains (india_polygon (ENGINE w)) (obs_lon o2, obs_lat o2) in
  pc (thread1 m) = Returned
  /\ pc (thread2 m) = Returned
  /\ f_result (thread1 m) = Some (snd a1)
  /\ f_result (thread2 m) = Some (snd a2)
  /\ shared m = fst a2
  /\ boundary_crossings (ENGINE (shared m))
     = (boundary_crossings (ENGINE w)
        + (if Bool.eqb inside1 (last_inside_boundary (ENGINE w)) then 0 else 1)
        + (if Bool.eqb inside2 inside1 then 0 else 1))%Z.
Proof.
  cbv zeta. unfold serial_schedule.
  rewrite interleave_app, interleave_first, interleave_second.
  cbn [thread1 thread2 shared start].
  pose proof (run_call cfg w o1) as H1. cbv zeta in H1.
  destruct H1 as (Hpc1 & Hr1 & Hw1).
  rewrite Hw1.
  pose proof (run_call cfg (fst (atomic_process_gps cfg w o1)) o2) as H2.
  cbv zeta in H2. destruct H2 as (Hpc2 & Hr2 & Hw2).
  rewrite Hw2.
  repeat (split; [assumption|]).
  split; [reflexivity|].
  set (w1 := fst (atomic_process_gps cfg w o1)).
  rewrite atomic_process_gps_engine. unfold engine_after_process_gps.
  pose proof (process_gps_frame cfg (ENGINE w1) (boundary_events w1) (obs_lat o2)
                (obs_lon o2) (obs_accuracy o2) (obs_time o2) (obs_db_ok o2)) as F2.
  cbv zeta in F2. destruct F2 as (_ & _ & _ & _ & _ & Hb2).
  rewrite Hb2. unfold w1. rewrite atomic_process_gps_engine.
  unfold engine_after_process_gps.
  pose proof (process_gps_frame cfg (ENGINE w) (boundary_events w) (obs_lat o1)
                (obs_lon o1) (obs_accuracy o1) (obs_time o1) (obs_db_ok o1)) as F1.
  cbv zeta in F1. destruct F1 as (Hp1 & _ & _ & Hi1 & _ & Hb1).
  rewrite Hb1, Hp1, Hi1.
  destruct (Bool.eqb (contains (india_polygon (ENGINE w)) (obs_lon o2, obs_lat o2))
              (contains (india_polygon (ENGINE w)) (obs_lon o1, obs_lat o1)));
    destruct (Bool.eqb (contains (india_polygon (ENGINE w)) (obs_lon o1, obs_lat o1))
                (last_inside_boundary (ENGINE w))); lia.
Qed.

End ThreadProperties.

(** * Further properties of the engine and its callers *)

Section Runs.

Context {G : Geometry}.

(** An observation that reaches the engine is [process_gps] followed by
    the caller's commit. *)
Lemma observe_processed (cfg : Config) (w : World) (o : Observation) :
  reaches_engine o = true ->
  let p := process_gps cfg (ENGINE w) (boundary_events w) (obs_lat o)
             (obs_lon o) (obs_accuracy o) (obs_time o) (obs_db_ok o) in
  let mark := match obs_caller o with Http => true | TestFeed => false end in
  let h := handle_emergency_call mark (fst (fst p)) (snd p)
             (obs_call_success o) (obs_commit_time o) in
  observe cfg w o
  = ({| ENGINE := fst h; boundary_events := snd (fst p) |}, Response_200 (snd h)).
Proof.
  intro Hr. cbv zeta. unfold reaches_engine in Hr.
  unfold observe, gps_endpoint, test_iteration.
  destruct (obs_caller o).
  - apply negb_true_iff in Hr. rewrite Hr.
    destruct (process_gps cfg (ENGINE w) (boundary_events w) (obs_lat o)
                (obs_lon o) (obs_accuracy o) (obs_time o) (obs_db_ok o))
      as [[e tb] r].
    simpl. destruct (handle_emergency_call true e r (obs_call_success o)
                       (obs_commit_time o)); reflexivity.
  - destruct (process_gps cfg (ENGINE w) (boundary_events w) (obs_lat o)
                (obs_lon o) (obs_accuracy o) (obs_time o) (obs_db_ok o))
      as [[e tb] r].
    simpl. destruct (handle_emergency_call false e r (obs_call_success o)
                       (obs_commit_time o)); reflexivity.
Qed.

(** The table and the event id [process_gps] returns. *)
Lemma process_gps_table (cfg : Config) (self : BoundaryCrossingEngine)
  (table : list BoundaryEvent) (lat lon accuracy t : Q) (db_ok : bool) :
  let inside := contains (india_polygon self) (lon, lat) in
  let crossed := negb (Bool.eqb inside (last_inside_boundary self)) in
  let out := process_gps cfg self table lat lon accuracy t db_ok in
  let row := {| ev_timestamp := py_int t;
                ev_latitude := lat;
                ev_longitude := lon;
                ev_inside_boundary := inside;
                ev_boundary_crossed := crossed;
                ev_distance_to_boundary :=
                  _calculate_boundary_distance self lat lon;
                ev_session_id := session_id self;
                ev_alert_triggered := crossed && negb inside |} in
  snd (fst out) = (if db_ok then table ++ [row] else table)
  /\ event_id (snd out)
     = (if db_ok then Z.of_nat (List.length table + 1) else 0%Z).
Proof.
  cbv zeta. unfold process_gps, detect_crossing, _log_boundary_event.
  destruct (contains (india_polygon self) (lon, lat)),
    (last_inside_boundary self), db_ok; simpl; break_if;
    rewrite ?length_app; simpl; split; reflexivity.
Qed.

(** The crossing counter and the table after one observation. *)
Lemma observe_counts (cfg : Config) (w : World) (o : Observation) :
  reaches_engine o = true ->
  let e := ENGINE w in
  let inside := contains (india_polygon e) (obs_lon o, obs_lat o) in
  let crossed := negb (Bool.eqb inside (last_inside_boundary e)) in
  let w' := fst (observe cfg w o) in
  boundary_crossings (ENGINE w')
  = (boundary_crossings e + (if crossed then 1 else 0))%Z
  /\ boundary_lines (ENGINE w') = boundary_lines e
  /\ exists row,
       ev_boundary_crossed row = crossed
       /\ ev_inside_boundary row = inside
       /\ boundary_events w'
          = if obs_db_ok o then boundary_events w ++ [row] else boundary_events w.
Proof.
  intro Hr. cbv zeta. rewrite (observe_processed cfg w o Hr). cbv zeta. simpl.
  pose proof (process_gps_frame cfg (ENGINE w) (boundary_events w) (obs_lat o)
                (obs_lon o) (obs_accuracy o) (obs_time o) (obs_db_ok o)) as Hf.
  pose proof (process_gps_table cfg (ENGINE w) (boundary_events w) (obs_lat o)
                (obs_lon o) (obs_accuracy o) (obs_time o) (obs_db_ok o)) as Ht.
  cbv zeta in Hf, Ht.
  destruct Hf as (_ & Hlines & _ & _ & _ & Hb). destruct Ht as (Ht & _).
  match goal with
  | |- context [handle_emergency_call ?m ?e ?r ?s ?c] =>
      pose proof (handle_emergency_call_spec m e r s c) as Hh
  end.
  cbv zeta in Hh. destruct Hh as (_ & _ & Hl2 & _ & Hb2 & _).
  rewrite Hb2, Hb, Hl2, Hlines. split; [|split; [reflexivity|]].
  - destruct (Bool.eqb (contains (india_polygon (ENGINE w))
                          (obs_lon o, obs_lat o))
                (last_inside_boundary (ENGINE w))); simpl; lia.
  - eexists. split; [|split; [|exact Ht]]; reflexivity.
Qed.

Lemma last_cons_default {A : Type} (x d : A) (l : list A) :
  last (x :: l) d = last l x.
Proof.
  revert x d. induction l as [|y l IH]; intros x d; [reflexivity|].
  change (last (x :: y :: l) d) with (last (y :: l) d).
  rewrite (IH y d), (IH y x). reflexivity.
Qed.

Lemma changes_parity (b : bool) (bs : list bool) :
  Z.odd (Z.of_nat (changes b bs)) = xorb (last bs b) b.
Proof.
  revert b. induction bs as [|x bs IH]; intro b.
  - simpl. destruct b; reflexivity.
  - rewrite last_cons_default. simpl changes.
    rewrite Nat2Z.inj_add, Z.odd_add, IH.
    destruct (last bs x), x, b; reflexivity.
Qed.

(** X1. Along any run of observations, by either caller, the crossing
    counter grows by exactly the number of times the computed containment
    changes, counted from the stored containment; observations the route
    rejects do not count. The stored containment ends as the containment
    of the last observation processed. Hence the counter has changed by
    an odd number exactly when the vessel has changed sides. *)
Theorem crossings_count_containment_changes (cfg : Config) (w : World)
  (os : list Observation) :
  let w' := fst (serve cfg w os) in
  let bs := containments (india_polygon (ENGINE w)) os in
  boundary_crossings (ENGINE w')
  = (boundary_crossings (ENGINE w)
     + Z.of_nat (changes (last_inside_boundary (ENGINE w)) bs))%Z
  /\ last_inside_boundary (ENGINE w')
     = last bs (last_inside_boundary (ENGINE w))
  /\ Z.odd (boundary_crossings (ENGINE w') - boundary_crossings (ENGINE w))
     = xorb (last_inside_boundary (ENGINE w')) (last_inside_boundary (ENGINE w)).
Proof.
  cbv zeta.
  assert (Hrun : forall w0,
             boundary_crossings (ENGINE (fst (serve cfg w0 os)))
             = (boundary_crossings (ENGINE w0)
                + Z.of_nat (changes (last_inside_boundary (ENGINE w0))
                              (containments (india_polygon (ENGINE w0)) os)))%Z
             /\ last_inside_boundary (ENGINE (fst (serve cfg w0 os)))
                = last (containments (india_polygon (ENGINE w0)) os)
                    (last_inside_boundary (ENGINE w0))).
  { clear w. induction os as [|o os IH]; intro w.
    - simpl. split; [lia|reflexivity].
    - simpl serve. unfold containments. simpl filter.
      pose proof (observe_polygon cfg w o) as Hp.
      destruct (reaches_engine o) eqn:Hr.
      + pose proof (observe_counts cfg w o Hr) as Hc.
        pose proof (observe_step cfg w o Hr) as Hs.
        cbv zeta in Hc, Hs. destruct Hc as (Hb & _). destruct Hs as (_ & _ & Hi & _).
        destruct (observe cfg w o) as [w1 r]. simpl in Hp, Hb, Hi.
        specialize (IH w1). unfold containments in IH. rewrite Hp, Hi in IH.
        destruct (serve cfg w1 os) as [w2 rs]. simpl fst in *.
        destruct IH as [IHb IHl]. simpl map. simpl changes.
        set (inside := contains (india_polygon (ENGINE w)) (obs_lon o, obs_lat o)) in *.
        set (rest := map (fun o0 => contains (india_polygon (ENGINE w))
                                      (obs_lon o0, obs_lat o0))
                       (filter reaches_engine os)) in *.
        split.
        * rewrite IHb, Hb.
          destruct (Bool.eqb inside (last_inside_boundary (ENGINE w))); simpl negb;
            cbv iota; lia.
        * rewrite IHl. symmetry. apply last_cons_default.
      + rewrite (observe_rejected cfg w o Hr) in *.
        specialize (IH w). unfold containments in IH.
        destruct (serve cfg w os) as [w2 rs]. exact IH.
  }
  destruct (Hrun w) as [Hb Hl]. split; [exact Hb|]. split; [exact Hl|].
  rewrite Hb, Hl.
  replace (boundary_crossings (ENGINE w)
           + Z.of_nat (changes (last_inside_boundary (ENGINE w))
                         (containments (india_polygon (ENGINE w)) os))
           - boundary_crossings (ENGINE w))%Z
    with (Z.of_nat (changes (last_inside_boundary (ENGINE w))
                      (containments (india_polygon (ENGINE w)) os))) by lia.
  apply changes_parity.
Qed.

(** ** The event table along a run *)

Lemma count_boundary_crossed_app (t1 t2 : list BoundaryEvent) :
  count_boundary_crossed (t1 ++ t2)
  = (count_boundary_crossed t1 + count_boundary_crossed t2)%nat.
Proof. unfold count_boundary_crossed. rewrite filter_app, length_app. reflexivity. Qed.

Lemma count_violations_app (t1 t2 : list BoundaryEvent) :
  count_violations (t1 ++ t2)
  = (count_violations t1 + count_violations t2)%nat.
Proof. unfold count_violations. rewrite filter_app, length_app. reflexivity. Qed.

(** The rows a run adds, with what the two queries find among them. *)
Lemma serve_table (cfg : Config) (os : list Observation) (w : World) :
  let w' := fst (serve cfg w os) in
  exists new,
    boundary_events w' = boundary_events w ++ new
    /\ List.length new = List.length (filter logged os)
    /\ (Z.of_nat (count_boundary_crossed new)
        <= boundary_crossings (ENGINE w') - boundary_crossings (ENGINE w))%Z
    /\ (Forall (fun o => obs_db_ok o = true) os ->
        Z.of_nat (count_boundary_crossed new)
        = (boundary_crossings (ENGINE w') - boundary_crossings (ENGINE w))%Z)
    /\ count_violations new
       = List.length
           (filter (fun o => logged o
                             && negb (contains (india_polygon (ENGINE w))
                                        (obs_lon o, obs_lat o))) os).
Proof.
  cbv zeta. revert w. induction os as [|o os IH]; intro w.
  - exists []. simpl. rewrite app_nil_r.
    repeat split; try reflexivity; try lia.
  - simpl serve.
    pose proof (observe_polygon cfg w o) as Hp.
    destruct (reaches_engine o) eqn:Hr.
    + pose proof (observe_counts cfg w o Hr) as Hc. cbv zeta in Hc.
      destruct Hc as (Hb & _ & row & Hrc & Hri & Ht).
      destruct (observe cfg w o) as [w1 r]. simpl in Hp, Hb, Ht.
      destruct (IH w1) as (new & Hn & Hlen & Hle & Heq & Hv).
      rewrite Hp in Hv.
      destruct (serve cfg w1 os) as [w2 rs]. simpl fst in *.
      set (inside := contains (india_polygon (ENGINE w)) (obs_lon o, obs_lat o)) in *.
      set (crossed := negb (Bool.eqb inside (last_inside_boundary (ENGINE w)))) in *.
      destruct (obs_db_ok o) eqn:Hdb.
      * assert (Hlog : logged o = true) by (unfold logged; rewrite Hr, Hdb; reflexivity).
        exists (row :: new). rewrite Hn, Ht, <- app_assoc. simpl filter.
        rewrite Hlog. fold inside. simpl andb.
        split; [reflexivity|]. split; [simpl; rewrite Hlen; reflexivity|].
        change (row :: new) with ([row] ++ new).
        rewrite count_boundary_crossed_app, count_violations_app.
        unfold count_boundary_crossed at 1 3, count_violations at 1. simpl filter.
        rewrite Hrc, Hri.
        split; [|split].
        -- destruct crossed; simpl List.length; lia.
        -- intro Hall. inversion Hall as [|? ? _ Hall']; subst.
           specialize (Heq Hall').
           destruct crossed; simpl List.length; lia.
        -- rewrite Hv. destruct (negb inside); simpl; reflexivity.
      * assert (Hlog : logged o = false) by (unfold logged; rewrite Hr, Hdb; reflexivity).
        exists new. rewrite Hn, Ht. simpl filter. rewrite Hlog. simpl andb.
        split; [reflexivity|]. split; [exact Hlen|].
        split; [destruct crossed; lia|]. split; [|exact Hv].
        intro Hall. inversion Hall; congruence.
    + rewrite (observe_rejected cfg w o Hr).
      assert (Hlog : logged o = false) by (unfold logged; rewrite Hr; reflexivity).
      simpl filter. rewrite Hlog. simpl andb.
      destruct (IH w) as (new & Hn & Hlen & Hle & Heq & Hv).
      destruct (serve cfg w os) as [w2 rs]. simpl fst in *.
      exists new. split; [exact Hn|]. split; [exact Hlen|].
      split; [exact Hle|]. split; [|exact Hv].
      intro Hall. inversion Hall; subst. auto.
Qed.

(** X2. The event table only grows along a run: the rows present before
    stay first and unchanged, every observation that reaches the engine
    and whose insert succeeds adds exactly one row, a rejected request or
    a failed insert adds none, and the rows the violations query counts
    grow by the number of stored observations outside the region. *)
Theorem event_table_is_append_only (cfg : Config) (w : World)
  (os : list Observation) :
  let w' := fst (serve cfg w os) in
  firstn (List.length (boundary_events w)) (boundary_events w')
  = boundary_events w
  /\ List.length (boundary_events w')
     = (List.length (boundary_events w) + List.length (filter logged os))%nat
  /\ count_violations (boundary_events w')
     = (count_violations (boundary_events w)
        + List.length
            (filter (fun o => logged o
                              && negb (contains (india_polygon (ENGINE w))
                                         (obs_lon o, obs_lat o))) os))%nat.
Proof.
  cbv zeta. destruct (serve_table cfg os w) as (new & Hn & Hlen & _ & _ & Hv).
  rewrite Hn. split; [|split].
  - rewrite firstn_app, Nat.sub_diag, firstn_all. simpl. apply app_nil_r.
  - rewrite length_app, Hlen. reflexivity.
  - rewrite count_violations_app, Hv. reflexivity.
Qed.

(** X3. The crossings the dashboard counts in the table never exceed the
    ones the engine counted over the same run, and the two agree when
    every insert of the run succeeded: a crossing whose insert failed is
    counted by the engine and missing from the dashboard. *)
Theorem dashboard_crossings_track_engine (cfg : Config) (w : World)
  (os : list Observation) :
  let w' := fst (serve cfg w os) in
  let shown := (Z.of_nat (count_boundary_crossed (boundary_events w'))
                - Z.of_nat (count_boundary_crossed (boundary_events w)))%Z in
  let counted := (boundary_crossings (ENGINE w')
                  - boundary_crossings (ENGINE w))%Z in
  (shown <= counted)%Z
  /\ (Forall (fun o => obs_db_ok o = true) os -> shown = counted).
Proof.
  cbv zeta. destruct (serve_table cfg os w) as (new & Hn & _ & Hle & Heq & _).
  rewrite Hn, count_boundary_crossed_app, Nat2Z.inj_add.
  split; [lia|]. intro Hall. specialize (Heq Hall). lia.
Qed.

(** ** One call of [process_gps] *)

(** X4. A failed insert changes nothing but the table and the event id:
    the engine is updated and the record decided exactly as with a
    successful insert. The failed call leaves the table as it was and
    reports event id 0; the successful one adds one row and reports a
    positive id. *)
Theorem failed_insert_only_loses_the_row (cfg : Config)
  (self : BoundaryCrossingEngine) (table : list BoundaryEvent)
  (lat lon accuracy t : Q) :
  let ok := process_gps cfg self table lat lon accuracy t true in
  let ko := process_gps cfg self table lat lon accuracy t false in
  fst (fst ko) = fst (fst ok)
  /\ snd (fst ko) = table
  /\ event_id (snd ko) = 0%Z
  /\ List.length (snd (fst ok)) = S (List.length table)
  /\ (0 < event_id (snd ok))%Z
  /\ inside_boundary (snd ko) = inside_boundary (snd ok)
  /\ boundary_crossed (snd ko) = boundary_crossed (snd ok)
  /\ crossing_direction (snd ko) = crossing_direction (snd ok)
  /\ distance_to_boundary (snd ko) = distance_to_boundary (snd ok)
  /\ total_crossings (snd ko) = total_crossings (snd ok)
  /\ requires_emergency_call (snd ko) = requires_emergency_call (snd ok)
  /\ call_reason (snd ko) = call_reason (snd ok).
Proof.
  cbv zeta. unfold process_gps, detect_crossing, _log_boundary_event.
  destruct (contains (india_polygon self) (lon, lat)),
    (last_inside_boundary self); simpl; break_if;
    rewrite ?length_app; simpl;
    repeat split; try reflexivity; try lia.
Qed.

(** X5. The record [process_gps] returns is consistent with itself: a
    direction is given exactly when a crossing is reported, entered when
    the position is inside and exited when it is outside; a call is
    required only with an exit crossing, and the reason
    "BOUNDARY_VIOLATION" is present exactly when a call is required. The
    record echoes the position and the engine's session id, and the
    engine itself never marks a call as made. *)
Theorem decision_record_is_consistent (cfg : Config)
  (self : BoundaryCrossingEngine) (table : list BoundaryEvent)
  (lat lon accuracy t : Q) (db_ok : bool) :
  let r := snd (process_gps cfg self table lat lon accuracy t db_ok) in
  crossing_direction r
  = (if boundary_crossed r
     then Some (if inside_boundary r then ENTERED_INDIAN_WATERS
                else EXITED_INDIAN_WATERS)
     else None)
  /\ requires_emergency_call r
     = requires_emergency_call r && (boundary_crossed r && negb (inside_boundary r))
  /\ call_reason r
     = (if requires_emergency_call r then Some "BOUNDARY_VIOLATION"%string
        else None)
  /\ emergency_call_made r = false
  /\ latitude r = lat
  /\ longitude r = lon
  /\ r_session_id r = session_id self.
Proof.
  cbv zeta. unfold process_gps, detect_crossing, _log_boundary_event.
  destruct (contains (india_polygon self) (lon, lat)),
    (last_inside_boundary self), db_ok; simpl; break_if;
    repeat split; reflexivity.
Qed.

(** X6. With a quota of at least one call the quota never refuses: the
    counter is always 0 when the throttle is consulted, so a call is
    required exactly on an exit crossing whose cooldown test passes, that
    is when the stored call time is unset, is 0, or lies at least
    CALL_COOLDOWN_SECONDS (the bound included) before the clock. *)
Theorem positive_quota_never_refuses (cfg : Config)
  (self : BoundaryCrossingEngine) (table : list BoundaryEvent)
  (lat lon accuracy t : Q) (db_ok : bool) :
  (1 <= MAX_EMERGENCY_CALLS cfg)%Z ->
  requires_emergency_call
    (snd (process_gps cfg self table lat lon accuracy t db_ok))
  = last_inside_boundary self
    && negb (contains (india_polygon self) (lon, lat))
    && match last_call_time self with
       | None => true
       | Some c => Qeq_bool c 0
                   || Qle_bool (CALL_COOLDOWN_SECONDS cfg) (t - c)
       end.
Proof.
  intro Hmax.
  pose proof (process_gps_requires cfg self table lat lon accuracy t db_ok) as Hr.
  pose proof (process_gps_frame cfg self table lat lon accuracy t db_ok) as Hf.
  cbv zeta in Hr, Hf. destruct Hf as (_ & _ & Hl & _ & Hc & _).
  rewrite Hr, should_make_emergency_call_eq, Hl, Hc.
  destruct (last_inside_boundary self),
    (contains (india_polygon self) (lon, lat)); simpl; try reflexivity.
  destruct (0 <? MAX_EMERGENCY_CALLS cfg)%Z eqn:E; [reflexivity|].
  apply Z.ltb_ge in E. lia.
Qed.

Lemma decision_record_fields (cfg : Config)
  (self : BoundaryCrossingEngine) (table : list BoundaryEvent)
  (lat lon accuracy t : Q) (db_ok : bool) :
  let r := snd (process_gps cfg self table lat lon accuracy t db_ok) in
  latitude r = lat
  /\ longitude r = lon
  /\ inside_boundary r = contains (india_polygon self) (lon, lat)
  /\ emergency_call_made r = false.
Proof.
  cbv zeta. unfold process_gps, detect_crossing, _log_boundary_event.
  destruct (contains (india_polygon self) (lon, lat)),
    (last_inside_boundary self), db_ok; simpl; break_if;
    repeat split; reflexivity.
Qed.

(** ** The throttle along a run *)

Lemma authorized_reaches (cfg : Config) (w : World) (o : Observation) :
  authorized (snd (observe cfg w o)) = true -> reaches_engine o = true.
Proof.
  destruct (reaches_engine o) eqn:Hr; [reflexivity|].
  rewrite (observe_rejected cfg w o Hr). simpl. discriminate.
Qed.

(** X8. With a quota of zero (or less) no observation of any run is ever
    authorised, and the stored call time never changes. *)
Theorem zero_quota_never_escalates (cfg : Config) (w : World)
  (os : list Observation) :
  (MAX_EMERGENCY_CALLS cfg <= 0)%Z ->
  count_authorized (snd (serve cfg w os)) = 0%nat
  /\ last_call_time (ENGINE (fst (serve cfg w os))) = last_call_time (ENGINE w).
Proof.
  intro Hmax. revert w. induction os as [|o os IH]; intro w; simpl.
  - split; reflexivity.
  - assert (Ha : authorized (snd (observe cfg w o)) = false
                 /\ last_call_time (ENGINE (fst (observe cfg w o)))
                    = last_call_time (ENGINE w)).
    { destruct (reaches_engine o) eqn:Hr.
      - pose proof (observe_step cfg w o Hr) as Hs. cbv zeta in Hs.
        destruct Hs as (Ha & _ & _ & _ & Hl).
        pose proof (process_gps_frame cfg (ENGINE w) (boundary_events w)
                      (obs_lat o) (obs_lon o) (obs_accuracy o) (obs_time o)
                      (obs_db_ok o)) as Hf.
        cbv zeta in Hf. destruct Hf as (_ & _ & _ & _ & Hc & _).
        assert (Hno : authorized (snd (observe cfg w o)) = false).
        { rewrite Ha, should_make_emergency_call_eq, Hc.
          destruct (last_inside_boundary (ENGINE w)),
            (contains (india_polygon (ENGINE w)) (obs_lon o, obs_lat o));
            simpl; try reflexivity.
          destruct (0 <? MAX_EMERGENCY_CALLS cfg)%Z eqn:E; [|reflexivity].
          apply Z.ltb_lt in E. lia. }
        split; [exact Hno|]. rewrite Hl, Hno. reflexivity.
      - rewrite (observe_rejected cfg w o Hr). split; reflexivity. }
    destruct Ha as [Ha Hl].
    destruct (observe cfg w o) as [w1 r]. simpl in Ha, Hl.
    destruct (IH w1) as [IHc IHl].
    destruct (serve cfg w1 os) as [w2 rs]. simpl in *.
    unfold count_authorized in *. simpl. rewrite Ha.
    split; [exact IHc|congruence].
Qed.

Lemma uncommitted_run_keeps_call_time (cfg : Config) (os : list Observation)
  (w : World) :
  any_committed cfg w os = false ->
  last_call_time (ENGINE (fst (serve cfg w os))) = last_call_time (ENGINE w).
Proof.
  revert w. induction os as [|o os IH]; intro w; simpl; [reflexivity|].
  intro Hno. apply orb_false_iff in Hno. destruct Hno as [Hc Hrest].
  assert (Hl : last_call_time (ENGINE (fst (observe cfg w o)))
               = last_call_time (ENGINE w)).
  { destruct (reaches_engine o) eqn:Hr.
    - pose proof (observe_step cfg w o Hr) as Hs. cbv zeta in Hs.
      destruct Hs as (_ & _ & _ & _ & Hl). unfold committed in Hc.
      rewrite Hl, Hc. reflexivity.
    - rewrite (observe_rejected cfg w o Hr). reflexivity. }
  specialize (IH _ Hrest).
  destruct (observe cfg w o) as [w1 r]. simpl in *.
  destruct (serve cfg w1 os) as [w2 rs]. simpl in *. congruence.
Qed.

(** X9. Two calls in a row are a cooldown apart. If an observation is
    authorised and its call is committed at a time other than 0, and no
    call is committed during the observations that follow, then the next
    observation that is authorised has its clock at least
    CALL_COOLDOWN_SECONDS after that commit. *)
Theorem committed_calls_are_a_cooldown_apart (cfg : Config) (w : World)
  (o1 : Observation) (mid : list Observation) (o2 : Observation) :
  committed cfg w o1 = true ->
  ~ obs_commit_time o1 == 0 ->
  let w1 := fst (observe cfg w o1) in
  any_committed cfg w1 mid = false ->
  let w2 := fst (serve cfg w1 mid) in
  authorized (snd (observe cfg w2 o2)) = true ->
  CALL_COOLDOWN_SECONDS cfg <= obs_time o2 - obs_commit_time o1.
Proof.
  intros Hc Hnz w1 Hmid w2 Ha.
  unfold committed in Hc.
  pose proof Hc as Hc'. apply andb_true_iff in Hc'. destruct Hc' as [Ha1 _].
  pose proof (observe_step cfg w o1 (authorized_reaches cfg w o1 Ha1)) as H1.
  cbv zeta in H1. destruct H1 as (_ & _ & _ & _ & Hl1).
  rewrite Hc in Hl1.
  pose proof (uncommitted_run_keeps_call_time cfg mid w1 Hmid) as Hl2.
  fold w2 in Hl2. unfold w1 in Hl2. rewrite Hl1 in Hl2.
  pose proof (observe_step cfg w2 o2 (authorized_reaches cfg w2 o2 Ha)) as H2.
  cbv zeta in H2. destruct H2 as (Ha2 & _).
  rewrite Ha in Ha2. symmetry in Ha2.
  apply andb_true_iff in Ha2. destruct Ha2 as [_ Hthr].
  pose proof (process_gps_frame cfg (ENGINE w2) (boundary_events w2)
                (obs_lat o2) (obs_lon o2) (obs_accuracy o2) (obs_time o2)
                (obs_db_ok o2)) as Hf.
  cbv zeta in Hf. destruct Hf as (_ & _ & Hl & _).
  rewrite should_make_emergency_call_eq, Hl, Hl2 in Hthr.
  apply andb_true_iff in Hthr. destruct Hthr as [_ Hcool].
  apply orb_true_iff in Hcool. destruct Hcool as [Hz|Hcool].
  - apply Qeq_bool_iff in Hz. contradiction.
  - apply Qle_bool_iff in Hcool. exact Hcool.
Qed.

End Runs.

Section DistanceFurther.

Context {G : Geometry}.

Variables lat lon : Q.

Lemma py_min2_attained (self : BoundaryCrossingEngine) (m : pyfloat) (x : Q) :
  attained lat lon self m -> In x (vertex_distances self lat lon) ->
  attained lat lon self (py_min2 m (Fin x)).
Proof.
  intros Hm Hx. unfold py_min2.
  destruct (pyfloat_lt (Fin x) m); [exact Hx|exact Hm].
Qed.

Lemma vertex_in_distances (self : BoundaryCrossingEngine) (line : LineString)
  (i : nat) :
  In line (boundary_lines self) ->
  (i < List.length (coords line))%nat ->
  In (vertex_dist lat lon line i) (vertex_distances self lat lon).
Proof.
  intros Hl Hi. unfold vertex_distances. apply in_flat_map.
  exists line. split; [exact Hl|].
  apply (In_vertex_dist lat lon). exists i. split; [exact Hi|reflexivity].
Qed.

Lemma line_loop_attained (self : BoundaryCrossingEngine) (line : LineString)
  (m : pyfloat) :
  In line (boundary_lines self) ->
  attained lat lon self m -> attained lat lon self (line_loop lat lon m line).
Proof.
  intros Hl. unfold line_loop.
  assert (Hgen : forall (idx : list nat) (m0 : pyfloat),
             (forall i, In i idx -> (i + 1 < List.length (coords line))%nat) ->
             attained lat lon self m0 ->
             attained lat lon self (fold_left (segment_step lat lon line) idx m0)).
  { induction idx as [|i idx IH]; intros m0 Hidx Hm0; simpl; [exact Hm0|].
    apply IH; [intros j Hj; apply Hidx; right; exact Hj|].
    unfold segment_step, py_min3. cbv zeta.
    assert (Hi : (i + 1 < List.length (coords line))%nat)
      by (apply Hidx; left; reflexivity).
    apply py_min2_attained; [apply py_min2_attained; [exact Hm0|]|].
    - apply (vertex_in_distances self line i Hl). lia.
    - apply (vertex_in_distances self line (i + 1) Hl). lia. }
  intro Hm. apply Hgen; [|exact Hm].
  intros i Hi. apply in_seq in Hi. lia.
Qed.

Lemma lines_loop_attained (self : BoundaryCrossingEngine)
  (lines : list LineString) (m : pyfloat) :
  (forall line, In line lines -> In line (boundary_lines self)) ->
  attained lat lon self m -> attained lat lon self (fold_left (line_loop lat lon) lines m).
Proof.
  revert m. induction lines as [|line lines IH]; intros m Hsub Hm; simpl;
    [exact Hm|].
  apply IH; [intros l Hl; apply Hsub; right; exact Hl|].
  apply line_loop_attained; [apply Hsub; left; reflexivity|exact Hm].
Qed.

(** X10. Whatever the boundary lines look like, the reported distance is
    either 0 or the distance to one of their vertices; so with a metric
    that is never negative the reported distance is never negative. *)
Theorem boundary_distance_is_attained_or_zero (self : BoundaryCrossingEngine) :
  (forall p q, 0 <= geodesic p q) ->
  0 <= _calculate_boundary_distance self lat lon
  /\ (_calculate_boundary_distance self lat lon = 0
      \/ In (_calculate_boundary_distance self lat lon)
           (vertex_distances self lat lon)).
Proof.
  intro Hpos.
  pose proof (lines_loop_attained self (boundary_lines self) Inf
                (fun l H => H) I) as Hatt.
  unfold _calculate_boundary_distance.
  destruct (fold_left (line_loop lat lon) (boundary_lines self) Inf) as [d|];
    simpl in Hatt.
  - split; [|right; exact Hatt].
    unfold vertex_distances in Hatt. apply in_flat_map in Hatt.
    destruct Hatt as (line & _ & Hd). apply in_map_iff in Hd.
    destruct Hd as (p & <- & _). apply Hpos.
  - split; [apply Qle_refl|left; reflexivity].
Qed.

(** The running minimum over all lines is the least vertex distance. *)
Lemma distance_min_of (self : BoundaryCrossingEngine) :
  Forall (fun line => List.length (coords line) <> 1%nat) (boundary_lines self) ->
  min_of (fold_left (line_loop lat lon) (boundary_lines self) Inf)
    (fun y => In y (vertex_distances self lat lon)).
Proof.
  intro Hall.
  eapply min_of_ext;
    [|apply (lines_loop_min lat lon (boundary_lines self) Inf
               (fun _ => False) Hall)].
  - intro x. unfold vertex_distances. tauto.
  - simpl. intros x H. exact H.
Qed.

(** The reported distance, when some vertex exists, is in the list of
    vertex distances and below each of them. *)
Lemma distance_least (self : BoundaryCrossingEngine) :
  Forall (fun line => List.length (coords line) <> 1%nat) (boundary_lines self) ->
  vertex_distances self lat lon <> [] ->
  In (_calculate_boundary_distance self lat lon) (vertex_distances self lat lon)
  /\ forall x, In x (vertex_distances self lat lon) ->
               _calculate_boundary_distance self lat lon <= x.
Proof.
  intros Hall Hne. pose proof (distance_min_of self Hall) as Hmin.
  unfold _calculate_boundary_distance.
  destruct (fold_left (line_loop lat lon) (boundary_lines self) Inf) as [d|];
    simpl in Hmin; [exact Hmin|].
  destruct (vertex_distances self lat lon) as [|x xs]; [congruence|].
  destruct (Hmin x). left. reflexivity.
Qed.

(** The reported distance is 0 or the distance to a vertex of the lines,
    and never negative when the metric is not. *)
Lemma distance_attained_or_zero (self : BoundaryCrossingEngine) :
  _calculate_boundary_distance self lat lon = 0
  \/ In (_calculate_boundary_distance self lat lon)
       (vertex_distances self lat lon).
Proof.
  pose proof (lines_loop_attained self (boundary_lines self) Inf
                (fun l H => H) I) as Hatt.
  unfold _calculate_boundary_distance.
  destruct (fold_left (line_loop lat lon) (boundary_lines self) Inf) as [d|];
    simpl in Hatt; [right; exact Hatt|left; reflexivity].
Qed.

Lemma distance_nonneg (self : BoundaryCrossingEngine) :
  (forall p q, 0 <= geodesic p q) ->
  0 <= _calculate_boundary_distance self lat lon.
Proof.
  intro Hpos. destruct (distance_attained_or_zero self) as [->|Hin].
  - apply Qle_refl.
  - unfold vertex_distances in Hin. apply in_flat_map in Hin.
    destruct Hin as (line & _ & Hd). apply in_map_iff in Hd.
    destruct Hd as (p & <- & _). apply Hpos.
Qed.

(** Without any vertex the loop never leaves its initial value and the
    distance reported is the 0 of line 205. *)
Lemma distance_without_vertex (self : BoundaryCrossingEngine) :
  Forall (fun line => List.length (coords line) <> 1%nat) (boundary_lines self) ->
  vertex_distances self lat lon = [] ->
  _calculate_boundary_distance self lat lon = 0.
Proof.
  intros Hall Hnil. pose proof (distance_min_of self Hall) as Hmin.
  rewrite Hnil in Hmin. unfold _calculate_boundary_distance.
  destruct (fold_left (line_loop lat lon) (boundary_lines self) Inf) as [d|];
    simpl in Hmin; [destruct Hmin as [[] _]|reflexivity].
Qed.

(** X11. More boundary lines never push the boundary away, unless there
    was no boundary at all. Let an engine have the lines of another one
    followed by further lines, none of them with exactly one coordinate.
    If the smaller set has a vertex, the distance the larger engine
    reports is at most the distance the smaller one reports. If the
    smaller set has no vertex, the smaller engine reports the 0 of line
    205, the larger one reports 0 or the distance to one of its
    vertices, and with a metric that is never negative this is at least
    the 0 of the smaller one: here more lines can only raise the
    distance reported. *)
Theorem more_lines_never_increase_distance (self self' : BoundaryCrossingEngine)
  (further : list LineString) :
  boundary_lines self' = boundary_lines self ++ further ->
  Forall (fun line => List.length (coords line) <> 1%nat) (boundary_lines self') ->
  (vertex_distances self lat lon <> [] ->
   _calculate_boundary_distance self' lat lon
   <= _calculate_boundary_distance self lat lon)
  /\ (vertex_distances self lat lon = [] ->
      _calculate_boundary_distance self lat lon = 0
      /\ (_calculate_boundary_distance self' lat lon = 0
          \/ In (_calculate_boundary_distance self' lat lon)
               (vertex_distances self' lat lon))
      /\ ((forall p q, 0 <= geodesic p q) ->
          _calculate_boundary_distance self lat lon
          <= _calculate_boundary_distance self' lat lon)).
Proof.
  intros Hlines Hall.
  assert (Hall0 : Forall (fun line => List.length (coords line) <> 1%nat)
                    (boundary_lines self)).
  { rewrite Hlines in Hall. apply Forall_app in Hall. tauto. }
  split.
  - intro Hne.
    assert (Hvd : forall x, In x (vertex_distances self lat lon) ->
                            In x (vertex_distances self' lat lon)).
    { intros x Hx. unfold vertex_distances in *. rewrite Hlines, flat_map_app.
      apply in_app_iff. left. exact Hx. }
    destruct (distance_least self Hall0 Hne) as [Hin _].
    assert (Hne' : vertex_distances self' lat lon <> []).
    { intro Hnil. specialize (Hvd _ Hin). rewrite Hnil in Hvd. destruct Hvd. }
    destruct (distance_least self' Hall Hne') as [_ Hle].
    apply Hle, Hvd, Hin.
  - intro Hnil.
    pose proof (distance_without_vertex self Hall0 Hnil) as H0.
    split; [exact H0|]. split; [apply distance_attained_or_zero|].
    intro Hpos. rewrite H0. apply distance_nonneg. exact Hpos.
Qed.

(** X12. The order in which the boundary lines are listed does not
    matter: two engines whose lines are a rearrangement of each other
    report the same distance (equal as numbers). *)
Theorem line_order_does_not_change_distance (self self' : BoundaryCrossingEngine) :
  Permutation (boundary_lines self) (boundary_lines self') ->
  Forall (fun line => List.length (coords line) <> 1%nat) (boundary_lines self) ->
  _calculate_boundary_distance self' lat lon
  == _calculate_boundary_distance self lat lon.
Proof.
  intros Hperm Hall.
  assert (Hall' : Forall (fun line => List.length (coords line) <> 1%nat)
                    (boundary_lines self')).
  { apply (Permutation_Forall Hperm Hall). }
  assert (Hvd : Permutation (vertex_distances self lat lon)
                  (vertex_distances self' lat lon)).
  { unfold vertex_distances. apply Permutation_flat_map. exact Hperm. }
  destruct (vertex_distances self lat lon) as [|x xs] eqn:E.
  - apply Permutation_nil in Hvd.
    pose proof (distance_min_of self Hall) as H1.
    pose proof (distance_min_of self' Hall') as H2.
    rewrite E in H1. rewrite Hvd in H2.
    unfold _calculate_boundary_distance.
    destruct (fold_left (line_loop lat lon) (boundary_lines self) Inf) as [d|];
      simpl in H1; [destruct H1 as [[] _]|].
    destruct (fold_left (line_loop lat lon) (boundary_lines self') Inf) as [d'|];
      simpl in H2; [destruct H2 as [[] _]|].
    apply Qeq_refl.
  - assert (Hne : vertex_distances self lat lon <> []) by (rewrite E; discriminate).
    assert (Hne' : vertex_distances self' lat lon <> []).
    { intro Hnil. rewrite Hnil in Hvd. rewrite E in Hne.
      apply Permutation_sym, Permutation_nil in Hvd. congruence. }
    rewrite <- E in Hvd.
    destruct (distance_least self Hall Hne) as [Hin Hle].
    destruct (distance_least self' Hall' Hne') as [Hin' Hle'].
    apply Qle_antisym.
    + apply Hle'. apply (Permutation_in _ Hvd). exact Hin.
    + apply Hle. apply (Permutation_in _ (Permutation_sym Hvd)). exact Hin'.
Qed.

End DistanceFurther.

(** * The test feed *)

Section TestFeedProperties.

Context {G : Geometry}.

Lemma py_index_in_range {A : Type} (l : list A) (i : Z) :
  (0 <= i < Z.of_nat (List.length l))%Z -> exists x, py_index l i = Some x.
Proof.
  intros [H0 Hn]. unfold py_index.
  destruct (0 <=? i)%Z eqn:E; [|apply Z.leb_gt in E; lia].
  destruct (nth_error l (Z.to_nat i)) as [x|] eqn:Hx; [exists x; reflexivity|].
  apply nth_error_None in Hx. lia.
Qed.

(** A round either takes the [except] branch, with no result and the
    schedule as it was, or runs to its end, with a result and the
    schedule moved on by lines 447-451. *)
Lemma feed_round_cases (cfg : Config) (recipient : string) (tc : TestConfig)
  (system : CallSystemObject) (ts : BoundaryTestingSystem) (w : World)
  (calls : list EmergencyCallRow) (rd : Round) :
  let out := feed_round cfg recipient tc system ts w calls rd in
  (snd out = None /\ fst (fst (fst out)) = ts)
  \/ (exists sc r,
        py_index (TEST_SCENARIOS tc) (scenario_index ts) = Some sc
        /\ snd out = Some r
        /\ fst (fst (fst out)) = next_schedule tc sc ts).
Proof.
  cbv zeta. unfold feed_round.
  destruct (py_index (TEST_SCENARIOS tc) (scenario_index ts)) as [sc|];
    [|left; split; reflexivity].
  destruct (round_gps_raises rd
            || geodesic_raises (ENGINE w)
                 (obs_lat (feed_observation sc (round_input rd))));
    [left; split; reflexivity|].
  destruct (process_gps cfg (ENGINE w) (boundary_events w)
              (obs_lat (feed_observation sc (round_input rd)))
              (obs_lon (feed_observation sc (round_input rd)))
              (obs_accuracy (feed_observation sc (round_input rd)))
              (obs_time (feed_observation sc (round_input rd)))
              (obs_db_ok (feed_observation sc (round_input rd))))
    as [[e tb] r].
  destruct (requires_emergency_call r).
  - destruct system as [|self]; [left; split; reflexivity|].
    destruct (make_boundary_violation_call recipient self calls
                (round_dispatch rd) (latitude r) (longitude r)
                (distance_to_boundary r) (r_session_id r) (event_id r))
      as [calls' ok].
    destruct (handle_emergency_call false e r ok
                (obs_commit_time (feed_observation sc (round_input rd))))
      as [e' r'].
    right. exists sc, r'. repeat split; reflexivity.
  - right. exists sc, r. repeat split; reflexivity.
Qed.

(** A round in which [process_gps] raises changes nothing at all. *)
Lemma feed_round_raises (cfg : Config) (recipient : string) (tc : TestConfig)
  (system : CallSystemObject) (ts : BoundaryTestingSystem) (w : World)
  (calls : list EmergencyCallRow) (rd : Round) (sc : Scenario) :
  py_index (TEST_SCENARIOS tc) (scenario_index ts) = Some sc ->
  round_gps_raises rd
  || geodesic_raises (ENGINE w) (sc_lat sc + lat_noise (round_input rd)) = true ->
  feed_round cfg recipient tc system ts w calls rd = (ts, w, calls, None).
Proof.
  intros Hsc Hr. unfold feed_round. rewrite Hsc. cbv zeta.
  change (obs_lat (feed_observation sc (round_input rd)))
    with (sc_lat sc + lat_noise (round_input rd)).
  rewrite Hr. reflexivity.
Qed.

(** No round changes the lines of the engine. *)
Lemma feed_round_lines (cfg : Config) (recipient : string) (tc : TestConfig)
  (system : CallSystemObject) (ts : BoundaryTestingSystem) (w : World)
  (calls : list EmergencyCallRow) (rd : Round) :
  boundary_lines
    (ENGINE (snd (fst (fst (feed_round cfg recipient tc system ts w calls rd)))))
  = boundary_lines (ENGINE w).
Proof.
  unfold feed_round.
  destruct (py_index (TEST_SCENARIOS tc) (scenario_index ts)) as [sc|];
    [|reflexivity].
  cbv zeta.
  destruct (round_gps_raises rd
            || geodesic_raises (ENGINE w)
                 (obs_lat (feed_observation sc (round_input rd))));
    [reflexivity|].
  pose proof (process_gps_frame cfg (ENGINE w) (boundary_events w)
                (obs_lat (feed_observation sc (round_input rd)))
                (obs_lon (feed_observation sc (round_input rd)))
                (obs_accuracy (feed_observation sc (round_input rd)))
                (obs_time (feed_observation sc (round_input rd)))
                (obs_db_ok (feed_observation sc (round_input rd)))) as Hf.
  cbv zeta in Hf. destruct Hf as (_ & Hl & _).
  destruct (process_gps cfg (ENGINE w) (boundary_events w)
              (obs_lat (feed_observation sc (round_input rd)))
              (obs_lon (feed_observation sc (round_input rd)))
              (obs_accuracy (feed_observation sc (round_input rd)))
              (obs_time (feed_observation sc (round_input rd)))
              (obs_db_ok (feed_observation sc (round_input rd))))
    as [[e tb] r].
  cbn [fst snd] in Hl.
  destruct (requires_emergency_call r); [|exact Hl].
  destruct system as [|self]; [exact Hl|].
  destruct (make_boundary_violation_call recipient self calls
              (round_dispatch rd) (latitude r) (longitude r)
              (distance_to_boundary r) (r_session_id r) (event_id r))
    as [calls' ok].
  pose proof (handle_emergency_call_spec false e r ok
                (obs_commit_time (feed_observation sc (round_input rd)))) as Hh.
  cbv zeta in Hh. destruct Hh as (_ & _ & Hl' & _).
  destruct (handle_emergency_call false e r ok
              (obs_commit_time (feed_observation sc (round_input rd))))
    as [e' r'].
  cbn [fst snd ENGINE] in *. congruence.
Qed.

(** With an initialised call system a round in which [process_gps] does
    not raise runs to its end. *)
Lemma feed_round_completes (cfg : Config) (recipient : string) (tc : TestConfig)
  (self : EmergencyCallSystem) (ts : BoundaryTestingSystem) (w : World)
  (calls : list EmergencyCallRow) (rd : Round) (sc : Scenario) :
  py_index (TEST_SCENARIOS tc) (scenario_index ts) = Some sc ->
  round_gps_raises rd = false ->
  geodesic_raises (ENGINE w) (sc_lat sc + lat_noise (round_input rd)) = false ->
  snd (feed_round cfg recipient tc (Initialised self) ts w calls rd) <> None.
Proof.
  intros Hsc Hr Hg. unfold feed_round. rewrite Hsc. cbv zeta.
  change (obs_lat (feed_observation sc (round_input rd)))
    with (sc_lat sc + lat_noise (round_input rd)).
  rewrite Hr, Hg. cbn [orb].
  destruct (process_gps cfg (ENGINE w) (boundary_events w)
              (sc_lat sc + lat_noise (round_input rd))
              (obs_lon (feed_observation sc (round_input rd)))
              (obs_accuracy (feed_observation sc (round_input rd)))
              (obs_time (feed_observation sc (round_input rd)))
              (obs_db_ok (feed_observation sc (round_input rd))))
    as [[e tb] r].
  destruct (requires_emergency_call r); [|discriminate].
  destruct (make_boundary_violation_call recipient self calls
              (round_dispatch rd) (latitude r) (longitude r)
              (distance_to_boundary r) (r_session_id r) (event_id r))
    as [calls' ok].
  destruct (handle_emergency_call false e r ok
              (obs_commit_time (feed_observation sc (round_input rd))))
    as [e' r'].
  discriminate.
Qed.

Lemma geodesic_raises_ext (self self' : BoundaryCrossingEngine) (lat : Q) :
  boundary_lines self' = boundary_lines self ->
  geodesic_raises self' lat = geodesic_raises self lat.
Proof. unfold geodesic_raises. intros ->. reflexivity. Qed.

Lemma next_schedule_index (tc : TestConfig) (sc : Scenario)
  (ts : BoundaryTestingSystem) :
  (0 <= scenario_index ts < Z.of_nat (List.length (TEST_SCENARIOS tc)))%Z ->
  running (next_schedule tc sc ts) = running ts
  /\ (0 <= scenario_index (next_schedule tc sc ts)
      < Z.of_nat (List.length (TEST_SCENARIOS tc)))%Z.
Proof.
  intro Hidx. unfold next_schedule. cbv zeta.
  destruct (sc_duration sc <=? scenario_timer ts + TEST_INTERVAL tc)%Z;
    cbn [running scenario_index]; (split; [reflexivity|]);
    [apply Z.mod_pos_bound; lia|exact Hidx].
Qed.

Lemma py_index_In {A : Type} (l : list A) (i : Z) (x : A) :
  py_index l i = Some x -> In x l.
Proof.
  unfold py_index.
  destruct (0 <=? i)%Z; [apply nth_error_In|].
  destruct (- Z.of_nat (List.length l) <=? i)%Z; [apply nth_error_In|discriminate].
Qed.

(** X13. The loop of the test feed never runs off its scenario table,
    and only a round that runs to its end gives a result. Started with
    an index inside the table, the index is inside the table after any
    number of rounds, whatever raises in them and whatever the durations
    and the interval are, and every round has its outcome, a result or
    none. With a call system whose [twilio_client] is set up, rounds in
    which no library call of [process_gps] raises all give a result.
    Rounds in which [process_gps] raises (a library call, or geopy on a
    latitude outside [-90, 90] once the engine has a line of two
    coordinates) give none and leave the schedule, the engine, the event
    table and the call log exactly as they were. *)
Theorem scenario_index_stays_in_table (cfg : Config) (recipient : string)
  (tc : TestConfig) (system : CallSystemObject) (ts : BoundaryTestingSystem)
  (w : World) (calls : list EmergencyCallRow) (rounds : list Round) :
  running ts = true ->
  (0 <= scenario_index ts < Z.of_nat (List.length (TEST_SCENARIOS tc)))%Z ->
  let out := feed_rounds cfg recipient tc system ts w calls rounds in
  (0 <= scenario_index (fst (fst (fst out)))
   < Z.of_nat (List.length (TEST_SCENARIOS tc)))%Z
  /\ running (fst (fst (fst out))) = true
  /\ List.length (snd out) = List.length rounds
  /\ (forall self, system = Initialised self ->
      Forall (fun rd =>
                round_gps_raises rd = false
                /\ forall sc, In sc (TEST_SCENARIOS tc) ->
                     geodesic_raises (ENGINE w)
                       (sc_lat sc + lat_noise (round_input rd)) = false)
        rounds ->
      Forall (fun r => r <> None) (snd out))
  /\ (forall sc,
      py_index (TEST_SCENARIOS tc) (scenario_index ts) = Some sc ->
      Forall (fun rd =>
                round_gps_raises rd
                || geodesic_raises (ENGINE w)
                     (sc_lat sc + lat_noise (round_input rd)) = true)
        rounds ->
      out = (ts, w, calls, repeat None (List.length rounds))).
Proof.
  cbv zeta. revert ts w calls. induction rounds as [|rd rounds IH];
    intros ts w calls Hrun Hidx.
  - cbn [feed_rounds fst snd List.length repeat].
    repeat split; try lia; try exact Hrun; intros; constructor.
  - cbn [feed_rounds]. rewrite Hrun.
    pose proof (feed_round_cases cfg recipient tc system ts w calls rd) as Hc.
    pose proof (feed_round_lines cfg recipient tc system ts w calls rd) as Hl.
    cbv zeta in Hc.
    assert (Hcompl : forall self sc, system = Initialised self ->
              py_index (TEST_SCENARIOS tc) (scenario_index ts) = Some sc ->
              round_gps_raises rd = false ->
              geodesic_raises (ENGINE w)
                (sc_lat sc + lat_noise (round_input rd)) = false ->
              snd (feed_round cfg recipient tc system ts w calls rd) <> None).
    { intros self sc -> Hsc Hr Hg.
      apply (feed_round_completes cfg recipient tc self ts w calls rd sc);
        assumption. }
    assert (Hraise : forall sc,
              py_index (TEST_SCENARIOS tc) (scenario_index ts) = Some sc ->
              round_gps_raises rd
              || geodesic_raises (ENGINE w)
                   (sc_lat sc + lat_noise (round_input rd)) = true ->
              feed_round cfg recipient tc system ts w calls rd
              = (ts, w, calls, None)).
    { intros sc. apply feed_round_raises. }
    destruct (feed_round cfg recipient tc system ts w calls rd)
      as [[[ts1 w1] calls1] r].
    cbn [fst snd] in Hc, Hl, Hcompl.
    assert (Hts1 : running ts1 = true
                   /\ (0 <= scenario_index ts1
                       < Z.of_nat (List.length (TEST_SCENARIOS tc)))%Z).
    { destruct Hc as [[_ ->]|(sc & r0 & _ & _ & ->)]; [split; assumption|].
      destruct (next_schedule_index tc sc ts Hidx) as [Hr Hi].
      split; [congruence|exact Hi]. }
    destruct Hts1 as [Hrun1 Hidx1].
    specialize (IH ts1 w1 calls1 Hrun1 Hidx1).
    destruct (feed_rounds cfg recipient tc system ts1 w1 calls1 rounds)
      as [[[ts2 w2] calls2] rs].
    cbn [fst snd] in IH |- *.
    destruct IH as (Hb & Hr2 & Hlen & Hall & Hnone).
    split; [exact Hb|]. split; [exact Hr2|].
    split; [cbn [List.length]; rewrite Hlen; reflexivity|].
    split.
    + intros self Hsys Hok. inversion Hok as [|rd0 rest [Hr0 Hg0] Hrest]; subst rd0 rest.
      destruct (py_index_in_range (TEST_SCENARIOS tc) (scenario_index ts) Hidx)
        as [sc Hsc].
      constructor.
      * apply (Hcompl self sc Hsys Hsc Hr0).
        apply Hg0. apply (py_index_In _ _ _ Hsc).
      * apply (Hall self Hsys).
        eapply Forall_impl; [|exact Hrest].
        intros rd' [Hr' Hg']. split; [exact Hr'|].
        intros sc' Hin. rewrite (geodesic_raises_ext (ENGINE w) (ENGINE w1));
          [apply Hg'; exact Hin|exact Hl].
    + intros sc Hsc Hbad.
      inversion Hbad as [|rd0 rest Hr0 Hrest]; subst rd0 rest.
      specialize (Hraise sc Hsc Hr0). injection Hraise as -> -> -> ->.
      pose proof (Hnone sc Hsc Hrest) as Heq.
      injection Heq as -> -> -> ->. reflexivity.
Qed.

(** A run none of whose rounds gives a result leaves the schedule as it
    was. *)
Lemma feed_rounds_idle (cfg : Config) (recipient : string) (tc : TestConfig)
  (system : CallSystemObject) (rounds : list Round)
  (ts : BoundaryTestingSystem) (w : World) (calls : list EmergencyCallRow) :
  let out := feed_rounds cfg recipient tc system ts w calls rounds in
  completed (snd out) = 0%nat -> fst (fst (fst out)) = ts.
Proof.
  cbv zeta. revert ts w calls. induction rounds as [|rd rounds IH];
    intros ts w calls; cbn [feed_rounds]; [reflexivity|].
  destruct (running ts); [|reflexivity].
  pose proof (feed_round_cases cfg recipient tc system ts w calls rd) as Hc.
  cbv zeta in Hc.
  destruct (feed_round cfg recipient tc system ts w calls rd)
    as [[[ts1 w1] calls1] r].
  specialize (IH ts1 w1 calls1).
  destruct (feed_rounds cfg recipient tc system ts1 w1 calls1 rounds)
    as [[[ts2 w2] calls2] rs].
  cbn [fst snd] in *.
  destruct Hc as [[-> ->]|(sc & r0 & _ & -> & _)].
  - unfold completed in *. cbn [filter has_result] in *. exact IH.
  - unfold completed. cbn [filter has_result List.length]. discriminate.
Qed.

Lemma feed_rounds_dwell (cfg : Config) (recipient : string) (tc : TestConfig)
  (system : CallSystemObject) (sc : Scenario) (rounds : list Round)
  (ts : BoundaryTestingSystem) (w : World) (calls : list EmergencyCallRow) :
  running ts = true ->
  (0 < TEST_INTERVAL tc)%Z ->
  py_index (TEST_SCENARIOS tc) (scenario_index ts) = Some sc ->
  let out := feed_rounds cfg recipient tc system ts w calls rounds in
  let k := Z.of_nat (completed (snd out)) in
  ((scenario_timer ts + k * TEST_INTERVAL tc < sc_duration sc ->
    scenario_index (fst (fst (fst out))) = scenario_index ts
    /\ scenario_timer (fst (fst (fst out)))
       = scenario_timer ts + k * TEST_INTERVAL tc)
   /\ (1 <= k ->
       scenario_timer ts + (k - 1) * TEST_INTERVAL tc < sc_duration sc ->
       sc_duration sc <= scenario_timer ts + k * TEST_INTERVAL tc ->
       scenario_index (fst (fst (fst out)))
       = (scenario_index ts + 1) mod Z.of_nat (List.length (TEST_SCENARIOS tc))
       /\ scenario_timer (fst (fst (fst out))) = 0))%Z.
Proof.
  intros Hrun Hint. cbv zeta. revert ts w calls Hrun.
  induction rounds as [|rd rounds IH]; intros ts w calls Hrun Hsc.
  - cbn [feed_rounds fst snd]. unfold completed. cbn [filter List.length].
    split; [intros _; split; lia|intros; lia].
  - cbn [feed_rounds]. rewrite Hrun.
    pose proof (feed_round_cases cfg recipient tc system ts w calls rd) as Hc.
    cbv zeta in Hc.
    destruct (feed_round cfg recipient tc system ts w calls rd)
      as [[[ts1 w1] calls1] r].
    cbn [fst snd] in Hc.
    pose proof (feed_rounds_idle cfg recipient tc system rounds ts1 w1 calls1)
      as Hidle.
    cbv zeta in Hidle.
    destruct Hc as [[-> ->]|(sc0 & r0 & Hsc0 & -> & ->)].
    + (* the round raised: nothing counted, nothing moved *)
      specialize (IH ts w1 calls1 Hrun Hsc).
      destruct (feed_rounds cfg recipient tc system ts w1 calls1 rounds)
        as [[[ts2 w2] calls2] rs].
      cbn [fst snd] in IH |- *.
      unfold completed in *. cbn [filter has_result] in *. exact IH.
    + rewrite Hsc in Hsc0. injection Hsc0 as <-.
      assert (Hcount : forall rs,
                 Z.of_nat (completed (Some r0 :: rs))
                 = (Z.of_nat (completed rs) + 1)%Z).
      { intro rs. unfold completed. cbn [filter has_result List.length]. lia. }
      unfold next_schedule in *. cbv zeta in *.
      destruct (sc_duration sc <=? scenario_timer ts + TEST_INTERVAL tc)%Z eqn:E.
      * (* the scenario ends with this round *)
        apply Z.leb_le in E.
        match type of Hidle with
        | context [feed_rounds _ _ _ _ ?t _ _ _] => set (ts1 := t) in *
        end.
        destruct (feed_rounds cfg recipient tc system ts1 w1 calls1 rounds)
          as [[[ts2 w2] calls2] rs].
        cbn [fst snd] in Hidle |- *. rewrite Hcount.
        set (k := Z.of_nat (completed rs)) in *.
        assert (Hk : (0 <= k)%Z) by (unfold k; lia).
        split; [intro Hlt; nia|].
        intros _ Hprev _.
        assert (Hk0 : k = 0%Z) by nia.
        rewrite Hidle by (unfold k in Hk0; lia).
        unfold ts1. cbn [scenario_index scenario_timer]. split; reflexivity.
      * apply Z.leb_gt in E.
        match type of Hidle with
        | context [feed_rounds _ _ _ _ ?t _ _ _] => set (ts1 := t) in *
        end.
        assert (Hrun1 : running ts1 = true) by exact Hrun.
        assert (Hsc1 : py_index (TEST_SCENARIOS tc) (scenario_index ts1) = Some sc)
          by exact Hsc.
        specialize (IH ts1 w1 calls1 Hrun1 Hsc1).
        destruct (feed_rounds cfg recipient tc system ts1 w1 calls1 rounds)
          as [[[ts2 w2] calls2] rs].
        cbn [fst snd] in IH |- *. rewrite Hcount.
        set (k := Z.of_nat (completed rs)) in *.
        assert (Hk : (0 <= k)%Z) by (unfold k; lia).
        unfold ts1 in IH. cbn [scenario_index scenario_timer] in IH.
        destruct IH as [IHa IHb].
        split.
        -- intro Hlt. destruct (IHa ltac:(nia)) as [-> ->].
           split; [reflexivity|nia].
        -- intros _ Hprev Hend.
           assert (Hk1 : (1 <= k)%Z) by nia.
           apply IHb; [exact Hk1|nia|nia].
Qed.

(** X14. How long a scenario is played, counted in the rounds that ran
    to their end; a round that took the [except] branch (no result)
    counts for nothing, whenever it comes. With a positive interval, a
    scenario entered with its timer at 0 is still the current one after
    [k] such rounds as long as [k] intervals are less than its duration,
    with the timer at [k] intervals; the round at which [k] intervals
    first reach the duration moves on to the next scenario (the first
    again after the last) and puts the timer back to 0. A scenario
    therefore takes as many completed rounds as intervals are needed to
    reach its duration, and at least one; a run without any completed
    round leaves the schedule where it was. *)
Theorem scenario_dwell_time (cfg : Config) (recipient : string)
  (tc : TestConfig) (system : CallSystemObject) (sc : Scenario)
  (ts : BoundaryTestingSystem) (w : World) (calls : list EmergencyCallRow)
  (rounds : list Round) :
  running ts = true ->
  (0 < TEST_INTERVAL tc)%Z ->
  scenario_timer ts = 0%Z ->
  py_index (TEST_SCENARIOS tc) (scenario_index ts) = Some sc ->
  let out := feed_rounds cfg recipient tc system ts w calls rounds in
  let k := Z.of_nat (completed (snd out)) in
  let ts' := fst (fst (fst out)) in
  ((k * TEST_INTERVAL tc < sc_duration sc ->
    scenario_index ts' = scenario_index ts
    /\ scenario_timer ts' = k * TEST_INTERVAL tc)
   /\ (1 <= k ->
       (k - 1) * TEST_INTERVAL tc < sc_duration sc ->
       sc_duration sc <= k * TEST_INTERVAL tc ->
       scenario_index ts'
       = (scenario_index ts + 1) mod Z.of_nat (List.length (TEST_SCENARIOS tc))
       /\ scenario_timer ts' = 0)
   /\ (k = 0 -> ts' = ts))%Z.
Proof.
  intros Hrun Hint Ht0 Hsc. cbv zeta.
  pose proof (feed_rounds_dwell cfg recipient tc system sc rounds ts w calls
                Hrun Hint Hsc) as H.
  pose proof (feed_rounds_idle cfg recipient tc system rounds ts w calls) as Hi.
  cbv zeta in H, Hi. rewrite Ht0 in H. cbn [Z.add] in H.
  destruct H as [Ha Hb]. split; [exact Ha|]. split; [exact Hb|].
  intro Hk. apply Hi. lia.
Qed.

(** X15. Every position the test feed builds from the scenario table of
    the source, with both noises within the 0.0005 degrees the loop
    draws them from, lies inside the ranges the route checks; the feed,
    which calls [process_gps] without that check, never hands it a
    position the route would have rejected. *)
Theorem test_feed_positions_are_in_range (sc : Scenario) (i : FeedInput) :
  In sc (TEST_SCENARIOS source_test_config) ->
  -0.0005 <= lat_noise i -> lat_noise i <= 0.0005 ->
  -0.0005 <= lon_noise i -> lon_noise i <= 0.0005 ->
  invalid_coordinates (obs_lat (feed_observation sc i))
    (obs_lon (feed_observation sc i)) = false.
Proof.
  intros Hin H1 H2 H3 H4. unfold invalid_coordinates.
  apply orb_false_iff. rewrite !negb_false_iff, !andb_true_iff.
  rewrite !Qle_bool_iff.
  simpl in Hin.
  repeat (destruct Hin as [<-|Hin]; [simpl; repeat split; lra|]).
  destruct Hin.
Qed.

End TestFeedProperties.

(** * The emergency call system *)

Lemma call_outcome (recipient : string)
  (self : EmergencyCallSystem) (calls : list EmergencyCallRow)
  (d : DispatchInput) (lat lon distance : Q) (session_id : string)
  (event_id : Z) :
  snd (make_boundary_violation_call recipient self calls d lat lon distance
         session_id event_id)
  = dispatch_succeeds self d.
Proof.
  unfold make_boundary_violation_call, _simulate_emergency_call,
    dispatch_succeeds.
  destruct (twilio_client self), (twilio_outcome d); reflexivity.
Qed.

(** X16. What the caller is told and what the call log says never
    disagree. [make_boundary_violation_call] reports success exactly when
    there is no Twilio client (simulation) or Twilio accepted the call.
    It never touches the rows already logged; when its insert succeeds it
    adds exactly one row, whose success flag is the value returned and
    whose event id and session id are the ones passed in; when the
    insert fails the log is unchanged and the value returned is the
    same. *)
Theorem call_log_agrees_with_outcome (recipient : string)
  (self : EmergencyCallSystem) (calls : list EmergencyCallRow)
  (d : DispatchInput) (lat lon distance : Q) (session_id : string)
  (event_id : Z) :
  let out := make_boundary_violation_call recipient self calls d lat lon
               distance session_id event_id in
  snd out = dispatch_succeeds self d
  /\ (call_log_ok d = false -> fst out = calls)
  /\ (call_log_ok d = true ->
      exists row,
        fst out = calls ++ [row]
        /\ ec_success row = snd out
        /\ ec_crossing_event_id row = event_id
        /\ ec_session_id row = session_id
        /\ ec_recipient row = recipient
        /\ (twilio_client self = None -> ec_call_sid row = Some "SIM_CALL"%string)).
Proof.
  cbv zeta.
  unfold make_boundary_violation_call, _simulate_emergency_call,
    _log_emergency_call, dispatch_succeeds.
  destruct (twilio_client self) as [c|], (twilio_outcome d) as [sid|],
    (call_log_ok d); simpl;
    (split; [reflexivity|]); (split; [intro; try reflexivity; discriminate|]);
    intro; try discriminate;
    eexists; (split; [reflexivity|]); simpl;
    repeat split; try reflexivity; intro; discriminate.
Qed.

Section LiveRoute.

Context {G : Geometry}.

Lemma in_range_is_valid (lat lon : Q) :
  -90 <= lat -> lat <= 90 -> -180 <= lon -> lon <= 180 ->
  invalid_coordinates lat lon = false.
Proof.
  intros H1 H2 H3 H4. unfold invalid_coordinates.
  apply Qle_bool_iff in H1, H2, H3, H4. rewrite H1, H2, H3, H4. reflexivity.
Qed.

(** Once an engine and a call system are set up and nothing raises, the
    route with its real dispatch is the route of the model with the
    outcome of the call filled in. *)
Lemma gps_endpoint_live_refines (cfg : Config) (recipient : string)
  (system : EmergencyCallSystem) (w : World) (calls : list EmergencyCallRow)
  (o : Observation) (d : DispatchInput) :
  geodesic_raises (ENGINE w) (obs_lat o) = false ->
  let live :=
    gps_endpoint_live cfg recipient (globals_of system w calls) o d
      NoRouteFault in
  let model :=
    gps_endpoint cfg w (with_call_success o (dispatch_succeeds system d)) in
  (invalid_coordinates (obs_lat o) (obs_lon o) = false ->
   g_ENGINE (fst live) = Some (ENGINE (fst model)))
  /\ g_boundary_events (fst live) = boundary_events (fst model)
  /\ snd live = snd model.
Proof.
  intro Hg. cbv zeta.
  unfold gps_endpoint_live, gps_endpoint, globals_of, with_call_success.
  cbn [g_ENGINE g_EMERGENCY_SYSTEM g_boundary_events g_emergency_calls
       obs_lat obs_lon obs_accuracy obs_time obs_db_ok obs_call_success
       obs_commit_time].
  destruct (invalid_coordinates (obs_lat o) (obs_lon o));
    [repeat split; discriminate|].
  rewrite Hg.
  destruct (process_gps cfg (ENGINE w) (boundary_events w) (obs_lat o)
              (obs_lon o) (obs_accuracy o) (obs_time o) (obs_db_ok o))
    as [[e tb] r].
  unfold handle_emergency_call.
  destruct (requires_emergency_call r); [|repeat split; reflexivity].
  pose proof (call_outcome recipient system calls d (latitude r) (longitude r)
                (distance_to_boundary r) (r_session_id r) (event_id r)) as Hc.
  destruct (make_boundary_violation_call recipient system calls d (latitude r)
              (longitude r) (distance_to_boundary r) (r_session_id r)
              (event_id r)) as [calls' ok].
  cbn [snd] in Hc. rewrite <- Hc. destruct ok; repeat split; reflexivity.
Qed.

(** Likewise for the test feed: a round that runs to its end with an
    initialised call system is the iteration of the model with the
    outcome of the call filled in. *)
Lemma feed_round_refines (cfg : Config) (recipient : string) (tc : TestConfig)
  (self : EmergencyCallSystem) (ts : BoundaryTestingSystem) (w : World)
  (calls : list EmergencyCallRow) (rd : Round) (sc : Scenario) :
  py_index (TEST_SCENARIOS tc) (scenario_index ts) = Some sc ->
  round_gps_raises rd = false ->
  geodesic_raises (ENGINE w) (sc_lat sc + lat_noise (round_input rd)) = false ->
  let out := feed_round cfg recipient tc (Initialised self) ts w calls rd in
  let model :=
    test_iteration cfg w
      (with_call_success (feed_observation sc (round_input rd))
         (dispatch_succeeds self (round_dispatch rd))) in
  fst (fst (fst out)) = next_schedule tc sc ts
  /\ snd (fst (fst out)) = fst model
  /\ snd out = Some (snd model).
Proof.
  intros Hsc Hr Hg. cbv zeta.
  unfold feed_round, test_iteration, with_call_success. rewrite Hsc. cbv zeta.
  cbn [obs_lat obs_lon obs_accuracy obs_time obs_db_ok obs_call_success
       obs_commit_time feed_observation].
  rewrite Hr, Hg. cbn [orb].
  destruct (process_gps cfg (ENGINE w) (boundary_events w)
              (sc_lat sc + lat_noise (round_input rd))
              (sc_lon sc + lon_noise (round_input rd))
              (feed_accuracy (round_input rd)) (feed_time (round_input rd))
              (feed_db_ok (round_input rd))) as [[e tb] r].
  unfold handle_emergency_call.
  destruct (requires_emergency_call r); [|repeat split; reflexivity].
  pose proof (call_outcome recipient self calls (round_dispatch rd)
                (latitude r) (longitude r) (distance_to_boundary r)
                (r_session_id r) (event_id r)) as Hc.
  destruct (make_boundary_violation_call recipient self calls
              (round_dispatch rd) (latitude r) (longitude r)
              (distance_to_boundary r) (r_session_id r) (event_id r))
    as [calls' ok].
  cbn [snd] in Hc. rewrite <- Hc. destruct ok; repeat split; reflexivity.
Qed.

(** X7. A position inside the ranges, the bounds -90, 90, -180 and 180
    included, is never answered with status 400: the answer is 200 or
    500. It is 500, with no call logged, exactly when something raises
    on the way: a conversion of the parameters or a library call, or
    [ENGINE] is still [None], or geopy refuses the latitude of a vertex
    of the lines, or a call is required and the call system has no
    [twilio_client] attribute. Otherwise it is 200 with a record that
    echoes the position and carries the containment Shapely computed,
    and [emergency_call_made] is set exactly when a call was required
    and its dispatch succeeded. *)
Theorem gps_endpoint_accepts_in_range (cfg : Config) (recipient : string)
  (g : Globals) (o : Observation) (d : DispatchInput) (fault : RouteFault) :
  -90 <= obs_lat o -> obs_lat o <= 90 ->
  -180 <= obs_lon o -> obs_lon o <= 180 ->
  let out := gps_endpoint_live cfg recipient g o d fault in
  match snd out with
  | Response_400 _ => False
  | Response_200 r =>
      fault = NoRouteFault
      /\ exists self,
           g_ENGINE g = Some self
           /\ geodesic_raises self (obs_lat o) = false
           /\ latitude r = obs_lat o
           /\ longitude r = obs_lon o
           /\ inside_boundary r
              = contains (india_polygon self) (obs_lon o, obs_lat o)
           /\ match g_EMERGENCY_SYSTEM g with
              | Bare =>
                  requires_emergency_call r = false
                  /\ emergency_call_made r = false
              | Initialised system =>
                  emergency_call_made r
                  = requires_emergency_call r && dispatch_succeeds system d
              end
  | Response_500 _ =>
      g_emergency_calls (fst out) = g_emergency_calls g
      /\ (fault <> NoRouteFault
          \/ g_ENGINE g = None
          \/ exists self,
               g_ENGINE g = Some self
               /\ (geodesic_raises self (obs_lat o) = true
                   \/ (g_EMERGENCY_SYSTEM g = Bare
                       /\ requires_emergency_call
                            (snd (process_gps cfg self (g_boundary_events g)
                                    (obs_lat o) (obs_lon o) (obs_accuracy o)
                                    (obs_time o) (obs_db_ok o))) = true)))
  end.
Proof.
  intros H1 H2 H3 H4. cbv zeta.
  pose proof (in_range_is_valid _ _ H1 H2 H3 H4) as Hinv.
  unfold gps_endpoint_live. cbv zeta.
  destruct fault as [|message|message];
    [|cbn [snd fst]; split; [reflexivity|left; discriminate]|].
  - rewrite Hinv.
    destruct (g_ENGINE g) as [self|] eqn:He;
      [|cbn [snd fst]; split; [reflexivity|right; left; reflexivity]].
    destruct (geodesic_raises self (obs_lat o)) eqn:Hg.
    { cbn [snd fst]. split; [reflexivity|]. right. right. exists self.
      split; [reflexivity|left; exact Hg]. }
    pose proof (decision_record_fields cfg self (g_boundary_events g)
                  (obs_lat o) (obs_lon o) (obs_accuracy o) (obs_time o)
                  (obs_db_ok o)) as Hd.
    cbv zeta in Hd.
    destruct (process_gps cfg self (g_boundary_events g) (obs_lat o)
                (obs_lon o) (obs_accuracy o) (obs_time o) (obs_db_ok o))
      as [[e tb] r] eqn:Hp.
    cbn [snd fst] in Hd |- *. destruct Hd as (Hlat & Hlon & Hin & Hmade).
    destruct (requires_emergency_call r) eqn:Hreq.
    + destruct (g_EMERGENCY_SYSTEM g) as [|system] eqn:Hs.
      * cbn [snd fst g_emergency_calls]. split; [reflexivity|].
        right. right. exists self. split; [reflexivity|].
        right. split; [reflexivity|]. rewrite Hp. exact Hreq.
      * pose proof (call_outcome recipient system (g_emergency_calls g) d
                      (latitude r) (longitude r) (distance_to_boundary r)
                      (r_session_id r) (event_id r)) as Hc.
        destruct (make_boundary_violation_call recipient system
                    (g_emergency_calls g) d (latitude r) (longitude r)
                    (distance_to_boundary r) (r_session_id r) (event_id r))
          as [calls' ok].
        cbn [snd] in Hc. rewrite <- Hc.
        unfold handle_emergency_call. rewrite Hreq.
        destruct ok; cbn [snd fst]; (split; [reflexivity|]);
          exists self; (split; [reflexivity|]); (split; [exact Hg|]);
          cbn [latitude longitude inside_boundary emergency_call_made
               requires_emergency_call set_emergency_call_made];
          rewrite ?Hreq; repeat split; assumption.
    + cbn [snd fst]. split; [reflexivity|]. exists self.
      split; [reflexivity|]. split; [exact Hg|].
      split; [exact Hlat|]. split; [exact Hlon|]. split; [exact Hin|].
      destruct (g_EMERGENCY_SYSTEM g) as [|system];
        [split; [exact Hreq|exact Hmade]|rewrite Hreq; exact Hmade].
  - rewrite Hinv.
    destruct (g_ENGINE g) as [self|];
      cbn [snd fst]; (split; [reflexivity|]); left; discriminate.
Qed.

(** What a crossing out of the region leaves in the engine when the
    throttle lets the call through. *)
Lemma required_call_state (cfg : Config) (self : BoundaryCrossingEngine)
  (table : list BoundaryEvent) (lat lon accuracy t : Q) (db_ok : bool) :
  let p := process_gps cfg self table lat lon accuracy t db_ok in
  requires_emergency_call (snd p) = true ->
  calls_for_current_crossing (fst (fst p)) = 0%Z
  /\ last_call_time (fst (fst p)) = last_call_time self
  /\ last_inside_boundary (fst (fst p)) = false
  /\ boundary_lines (fst (fst p)) = boundary_lines self
  /\ india_polygon (fst (fst p)) = india_polygon self
  /\ contains (india_polygon self) (lon, lat) = false.
Proof.
  cbv zeta. intro Hreq.
  pose proof (process_gps_requires cfg self table lat lon accuracy t db_ok) as Hr.
  pose proof (process_gps_frame cfg self table lat lon accuracy t db_ok) as Hf.
  cbv zeta in Hr, Hf. rewrite Hreq in Hr. symmetry in Hr.
  apply andb_true_iff in Hr. destruct Hr as [Hedge _].
  apply andb_true_iff in Hedge. destruct Hedge as [Hlast Hout].
  apply negb_true_iff in Hout.
  destruct Hf as (Hp & Hb & Hl & Hi & Hc & _).
  rewrite Hout, Hlast in Hc. rewrite Hout in Hi.
  repeat split; assumption.
Qed.

(** X17. A call the engine requires is dispatched only by a call system
    that was initialised. With the [EMERGENCY_SYSTEM] the module builds
    (line 477 runs no initialiser, the class spelling its constructor
    [_init_]), a request on which a call is required is answered with
    status 500 and the text of the AttributeError of line 275: no call
    is made, logged or counted and the stored call time stays, yet the
    engine has recorded the crossing and the event, so that the same
    request sent again is answered with status 200 and requires no call.
    With an initialised call system without Twilio client the call is
    made: the answer is 200 with [emergency_call_made] set, the engine
    holds one call for the crossing and the commit time as its last call
    time, and, the insert permitting, the call log has one more row,
    marked successful and pointing at the event of the record. *)
Theorem required_call_needs_an_initialised_call_system (cfg : Config)
  (recipient : string) (g : Globals) (self : BoundaryCrossingEngine)
  (o : Observation) (d : DispatchInput) :
  g_ENGINE g = Some self ->
  invalid_coordinates (obs_lat o) (obs_lon o) = false ->
  geodesic_raises self (obs_lat o) = false ->
  let p := process_gps cfg self (g_boundary_events g) (obs_lat o) (obs_lon o)
             (obs_accuracy o) (obs_time o) (obs_db_ok o) in
  requires_emergency_call (snd p) = true ->
  let out := gps_endpoint_live cfg recipient g o d NoRouteFault in
  (g_EMERGENCY_SYSTEM g = EMERGENCY_SYSTEM ->
   snd out = Response_500 no_twilio_client
   /\ g_ENGINE (fst out) = Some (fst (fst p))
   /\ g_boundary_events (fst out) = snd (fst p)
   /\ g_emergency_calls (fst out) = g_emergency_calls g
   /\ calls_for_current_crossing (fst (fst p)) = 0%Z
   /\ last_call_time (fst (fst p)) = last_call_time self
   /\ forall (o2 : Observation) (d2 : DispatchInput),
        obs_lat o2 = obs_lat o -> obs_lon o2 = obs_lon o ->
        exists r2,
          snd (gps_endpoint_live cfg recipient (fst out) o2 d2 NoRouteFault)
          = Response_200 r2
          /\ requires_emergency_call r2 = false
          /\ emergency_call_made r2 = false)
  /\ (forall system,
        g_EMERGENCY_SYSTEM g = Initialised system ->
        twilio_client system = None ->
        exists r e,
          snd out = Response_200 r
          /\ emergency_call_made r = true
          /\ g_ENGINE (fst out) = Some e
          /\ calls_for_current_crossing e = 1%Z
          /\ last_call_time e = Some (obs_commit_time o)
          /\ (call_log_ok d = true ->
              exists row,
                g_emergency_calls (fst out) = g_emergency_calls g ++ [row]
                /\ ec_success row = true
                /\ ec_crossing_event_id row = event_id r)).
Proof.
  intros He Hinv Hg. cbv zeta. intro Hreq.
  pose proof (required_call_state cfg self (g_boundary_events g) (obs_lat o)
                (obs_lon o) (obs_accuracy o) (obs_time o) (obs_db_ok o)) as Hst.
  cbv zeta in Hst. specialize (Hst Hreq).
  destruct Hst as (Hc & Hl & Hlast & Hlines & Hpoly & Hout).
  destruct (process_gps cfg self (g_boundary_events g) (obs_lat o)
              (obs_lon o) (obs_accuracy o) (obs_time o) (obs_db_ok o))
    as [[e tb] r] eqn:Hp.
  cbn [fst snd] in *.
  split.
  - unfold EMERGENCY_SYSTEM. intros Hs.
    assert (Hlive : gps_endpoint_live cfg recipient g o d NoRouteFault
                    = ({| g_ENGINE := Some e;
                          g_EMERGENCY_SYSTEM := Bare;
                          g_boundary_events := tb;
                          g_emergency_calls := g_emergency_calls g |},
                       Response_500 no_twilio_client)).
    { unfold gps_endpoint_live. cbv zeta.
      rewrite Hinv, He, Hg, Hp, Hreq, Hs. reflexivity. }
    rewrite Hlive.
    cbn [fst snd g_ENGINE g_boundary_events g_emergency_calls].
    repeat (split; [first [reflexivity|assumption]|]).
    intros o2 d2 Hlat2 Hlon2. unfold gps_endpoint_live. cbv zeta.
    cbn [g_ENGINE g_boundary_events g_emergency_calls g_EMERGENCY_SYSTEM].
    rewrite Hlat2, Hlon2, Hinv.
    rewrite (geodesic_raises_ext self e (obs_lat o) Hlines), Hg.
    pose proof (process_gps_requires cfg e tb (obs_lat o) (obs_lon o)
                  (obs_accuracy o2) (obs_time o2) (obs_db_ok o2)) as Hr2.
    pose proof (decision_record_fields cfg e tb (obs_lat o) (obs_lon o)
                  (obs_accuracy o2) (obs_time o2) (obs_db_ok o2)) as Hd2.
    cbv zeta in Hr2, Hd2. rewrite Hlast in Hr2. cbn [andb] in Hr2.
    destruct (process_gps cfg e tb (obs_lat o) (obs_lon o) (obs_accuracy o2)
                (obs_time o2) (obs_db_ok o2)) as [[e2 tb2] r2].
    cbn [fst snd] in Hr2, Hd2 |- *. rewrite Hr2. cbn [snd].
    exists r2. split; [reflexivity|]. split; [exact Hr2|].
    destruct Hd2 as (_ & _ & _ & Hmade). exact Hmade.
  - intros system Hs Hsim.
    unfold gps_endpoint_live. cbv zeta.
    rewrite Hinv, He, Hg, Hp, Hreq, Hs.
    unfold make_boundary_violation_call, _simulate_emergency_call,
      _log_emergency_call. rewrite Hsim.
    unfold handle_emergency_call. rewrite Hreq.
    cbn [fst snd g_ENGINE g_emergency_calls].
    eexists. eexists. split; [reflexivity|].
    cbn [emergency_call_made set_emergency_call_made].
    split; [reflexivity|]. split; [reflexivity|].
    cbn [calls_for_current_crossing last_call_time
         set_calls_for_current_crossing set_last_call_time].
    rewrite Hc. split; [reflexivity|]. split; [reflexivity|].
    intros ->. eexists. split; [reflexivity|]. split; reflexivity.
Qed.

End LiveRoute.

(** * Loading the boundary files *)

Section LoaderProperties.

Context {G : Geometry}.

Variable make_LineString : json -> PyError + LineString.
Variable shape : json -> PyError + polygon.

Lemma features_loop_app (pre post : list json) (lines : list LineString) :
  features_loop make_LineString (pre ++ post) lines
  = bind (features_loop make_LineString pre lines)
      (fun lines' => features_loop make_LineString post lines').
Proof.
  revert lines. induction pre as [|feat pre IH]; intro lines; simpl.
  - reflexivity.
  - destruct (py_get feat "geometry" (JObj [])) as [e|g]; [reflexivity|].
    simpl. destruct (geometry_lines make_LineString g) as [e|new];
      [reflexivity|].
    simpl. apply IH.
Qed.

Lemma load_feature_collection (gj : json) (feats : list json) :
  feature_collection_of gj feats ->
  load_geojson_lines make_LineString gj
  = features_loop make_LineString feats [].
Proof.
  intros (members & -> & Ht & Hf). unfold load_geojson_lines. simpl.
  rewrite Ht, Hf. reflexivity.
Qed.

(** X18. A boundary file that is a JSON object of any type other than
    "FeatureCollection" and "Feature" (a bare "LineString" geometry, say,
    or an object without "type") loads without error and without lines,
    and an engine holding the lines loaded reports distance 0 at every
    position. [main] gets no engine from it even so: when the zone file
    loads as well, the constructor call of line 886 raises TypeError,
    the class spelling its constructor [_init_]. *)
Theorem other_geojson_types_give_no_boundary (members : list (string * json)) :
  py_eq_str (member_or_null members "type") "FeatureCollection" = false ->
  py_eq_str (member_or_null members "type") "Feature" = false ->
  load_geojson_lines make_LineString (JObj members) = inr []
  /\ (forall engine lines lat lon,
        load_geojson_lines make_LineString (JObj members) = inr lines ->
        boundary_lines engine = lines ->
        _calculate_boundary_distance engine lat lon = 0)
  /\ (forall zone india_polygon,
        load_geojson_polygon shape "india_maritime_zone.geojson" zone
        = inr india_polygon ->
        load_engine make_LineString shape zone (JObj members) = inl TypeError).
Proof.
  intros H1 H2.
  assert (Hload : load_geojson_lines make_LineString (JObj members) = inr []).
  { unfold load_geojson_lines, member_or_null in *. simpl.
    rewrite H1, H2. reflexivity. }
  split; [exact Hload|]. split.
  - intros engine lines lat lon Hl Hb. rewrite Hload in Hl.
    injection Hl as <-. unfold _calculate_boundary_distance.
    rewrite Hb. reflexivity.
  - intros zone p Hp. unfold load_engine. rewrite Hp, Hload. reflexivity.
Qed.


End LoaderProperties.

(** * The engine on the demonstration geometry *)

#[local] Existing Instance demo_geometry.

(** C1, evaluated where code and rule part. With the stored time [0.0], no
    call counted and the clock at 10 s, the cooldown of 30 s has not
    elapsed and the rule says no; the code tests the stored time for
    truth, finds [0.0] false, skips the cooldown test and says yes. *)
Theorem throttle_skips_cooldown_at_zero_timestamp :
  last_call_time epoch_engine = Some 0
  /\ calls_for_current_crossing epoch_engine = 0%Z
  /\ mayEscalate_rule source_config epoch_engine 10 = false
  /\ _should_make_emergency_call source_config epoch_engine 10 = true.
Proof. repeat split. Qed.

(** C2, refuted as stated. After the exit at 1010 s, the vessel is still
    outside at 1100 s: the cooldown of 30 s has elapsed since the call
    committed at 1011 s, one call of three is used, the throttle itself
    would allow a call, and yet the record does not authorise one. *)
Lemma sustained_outside_is_not_escalated :
  let o := demo_obs 24.2 67.8 1100 in
  let out := gps_endpoint source_config world_after_exit o in
  last_inside_boundary (ENGINE world_after_exit) = false
  /\ last_call_time (ENGINE world_after_exit) = Some (1010 + 1)
  /\ calls_for_current_crossing (ENGINE world_after_exit) = 1%Z
  /\ contains (india_polygon (ENGINE world_after_exit)) (obs_lon o, obs_lat o)
     = false
  /\ _should_make_emergency_call source_config (ENGINE (fst out)) (obs_time o)
     = true
  /\ authorized (snd out) = false.
Proof. vm_compute. repeat split. Qed.

Lemma process_gps_transition_witness :
  let out := process_gps source_config demo_engine [] 24.05 67.95 10 1010 true in
  boundary_crossed (snd out) = true
  /\ crossing_direction (snd out) = Some EXITED_INDIAN_WATERS
  /\ boundary_crossings (fst (fst out)) = 1%Z
  /\ total_crossings (snd out) = 1%Z
  /\ last_inside_boundary (fst (fst out)) = false.
Proof.
  cbv zeta.
  destruct (process_gps_transition source_config demo_engine [] 24.05 67.95 10
              1010 true) as (_ & Hcross & _).
  apply Hcross. simpl. discriminate.
Defined.

Lemma escalation_only_on_exit_edge_witness :
  last_inside_boundary (ENGINE world_after_exit) = false
  /\ requires_emergency_call
       (snd (process_gps source_config (ENGINE world_after_exit)
               (boundary_events world_after_exit) 24.2 67.8 10 1100 true))
     = false.
Proof.
  split; [reflexivity|].
  apply (escalation_only_on_exit_edge source_config (ENGINE world_after_exit)
           (boundary_events world_after_exit) 24.2 67.8 10 1100 true).
  reflexivity.
Defined.

Lemma calls_reset_on_every_transition_witness :
  let enter := demo_obs 23.8 68.2 1300 in
  let leave := demo_obs 24.05 67.95 1400 in
  let w1 := fst (gps_endpoint source_config world_after_exit enter) in
  let e2 := fst (fst (process_gps source_config (ENGINE w1) (boundary_events w1)
                        (obs_lat leave) (obs_lon leave) (obs_accuracy leave)
                        (obs_time leave) (obs_db_ok leave))) in
  calls_for_current_crossing (ENGINE world_after_exit) = 1%Z
  /\ calls_for_current_crossing (ENGINE w1) = 0%Z
  /\ calls_for_current_crossing e2 = 0%Z.
Proof.
  cbv zeta.
  destruct (calls_reset_on_every_transition source_config demo_engine []
              22.5 69.0 10 1000 true) as (_ & _ & _ & H).
  destruct (H world_after_exit (demo_obs 23.8 68.2 1300)
              (demo_obs 24.05 67.95 1400) eq_refl eq_refl eq_refl eq_refl)
    as (H1 & _ & H2 & _).
  split; [reflexivity|]. split; [exact H1|exact H2].
Defined.

Lemma boundary_distance_is_vertex_minimum_witness :
  Forall (fun line => List.length (coords line) <> 1%nat)
    (boundary_lines demo_engine)
  /\ is_minimum (_calculate_boundary_distance demo_engine 24.05 67.95)
       (vertex_distances demo_engine 24.05 67.95).
Proof.
  assert (H : Forall (fun line => List.length (coords line) <> 1%nat)
                (boundary_lines demo_engine)).
  { repeat constructor. simpl. lia. }
  split; [exact H|].
  apply (boundary_distance_is_vertex_minimum 24.05 67.95 demo_engine H).
  simpl. discriminate.
Defined.

Lemma gps_endpoint_rejects_out_of_range_witness :
  90 < obs_lat (demo_obs 95 67.8 1100)
  /\ gps_endpoint source_config world_after_exit (demo_obs 95 67.8 1100)
     = (world_after_exit, Response_400 "Invalid coordinates"%string).
Proof.
  assert (H : 90 < obs_lat (demo_obs 95 67.8 1100)).
  { simpl. unfold Qlt. simpl. lia. }
  split; [exact H|].
  apply gps_endpoint_rejects_out_of_range.
  right. left. exact H.
Defined.



Lemma escalations_per_outside_episode_witness :
  (0 <= MAX_EMERGENCY_CALLS source_config)%Z
  /\ (Z.of_nat
     (count_authorized
        (firstn 3
           (skipn 1
              (snd (serve source_config demo_world
                      ([demo_obs 22.5 69.0 1000]
                       ++ [demo_obs 24.05 67.95 1010; demo_obs 24.2 67.8 1100;
                           demo_obs 24.2 67.8 1200]
                       ++ [demo_obs 23.8 68.2 1300]))))))
   <= 3)%Z.
Proof.
  split; [simpl; lia|].
  apply (escalations_per_outside_episode source_config demo_world
           [demo_obs 22.5 69.0 1000]
           [demo_obs 24.05 67.95 1010; demo_obs 24.2 67.8 1100;
            demo_obs 24.2 67.8 1200]
           [demo_obs 23.8 68.2 1300]).
  - simpl. lia.
  - repeat constructor.
Defined.

(** C9, refuted as stated. Two requests report the vessel outside while
    the engine still holds "inside". Served one after the other they
    count one crossing; when the second call starts while the first is
    writing its event row, both read the old containment before either
    writes the new one, both report a crossing, the crossing count ends
    at two and both records authorise an emergency call. *)
Lemma overlapping_calls_count_one_crossing_twice :
  let o1 := demo_obs 24.05 67.95 1010 in
  let o2 := demo_obs 24.2 67.8 1011 in
  let serial := interleave source_config serial_schedule (start demo_world o1 o2) in
  let racy := interleave source_config overlapping_schedule (start demo_world o1 o2) in
  boundary_crossings (ENGINE (shared serial)) = 1%Z
  /\ option_map boundary_crossed (f_result (thread2 serial)) = Some false
  /\ pc (thread1 racy) = Returned
  /\ pc (thread2 racy) = Returned
  /\ boundary_crossings (ENGINE (shared racy)) = 2%Z
  /\ option_map boundary_crossed (f_result (thread1 racy)) = Some true
  /\ option_map boundary_crossed (f_result (thread2 racy)) = Some true
  /\ option_map requires_emergency_call (f_result (thread1 racy)) = Some true
  /\ option_map requires_emergency_call (f_result (thread2 racy)) = Some true.
Proof. vm_compute. repeat split. Qed.

(** ** Further properties, run on the demonstration data *)

Lemma committed_calls_are_a_cooldown_apart_witness :
  let o1 := demo_obs 24.05 67.95 1010 in
  let mid := [demo_obs 24.2 67.8 1020; demo_obs 23.8 68.2 1030] in
  let o2 := demo_obs 24.05 67.95 1050 in
  let w1 := fst (observe source_config demo_world o1) in
  committed source_config demo_world o1 = true
  /\ any_committed source_config w1 mid = false
  /\ authorized (snd (observe source_config (fst (serve source_config w1 mid)) o2))
     = true
  /\ CALL_COOLDOWN_SECONDS source_config <= obs_time o2 - obs_commit_time o1.
Proof.
  cbv zeta. split; [reflexivity|]. split; [reflexivity|]. split; [reflexivity|].
  apply (committed_calls_are_a_cooldown_apart source_config demo_world
           (demo_obs 24.05 67.95 1010)
           [demo_obs 24.2 67.8 1020; demo_obs 23.8 68.2 1030]
           (demo_obs 24.05 67.95 1050)).
  - reflexivity.
  - simpl. unfold Qeq. simpl. lia.
  - reflexivity.
  - reflexivity.
Defined.

Lemma dashboard_crossings_track_engine_witness :
  let os := [demo_obs 22.5 69.0 1000; demo_obs 24.05 67.95 1010;
             demo_obs 23.8 68.2 1300] in
  let w' := fst (serve source_config demo_world os) in
  Forall (fun o => obs_db_ok o = true) os
  /\ (Z.of_nat (count_boundary_crossed (boundary_events w'))
      - Z.of_nat (count_boundary_crossed (boundary_events demo_world))
      = boundary_crossings (ENGINE w') - boundary_crossings (ENGINE demo_world))%Z.
Proof.
  cbv zeta.
  assert (H : Forall (fun o => obs_db_ok o = true)
                [demo_obs 22.5 69.0 1000; demo_obs 24.05 67.95 1010;
                 demo_obs 23.8 68.2 1300])
    by (repeat constructor).
  split; [exact H|].
  apply (dashboard_crossings_track_engine source_config demo_world
           [demo_obs 22.5 69.0 1000; demo_obs 24.05 67.95 1010;
            demo_obs 23.8 68.2 1300]).
  exact H.
Defined.

Lemma gps_endpoint_accepts_in_range_witness :
  exists r,
    snd (gps_endpoint_live source_config "recipient"
           (globals_of simulation_system demo_world [])
           (demo_obs 90 (-180) 1000) demo_dispatch NoRouteFault)
    = Response_200 r
    /\ latitude r = 90
    /\ longitude r = -180.
Proof.
  pose proof (gps_endpoint_accepts_in_range source_config "recipient"
                (globals_of simulation_system demo_world [])
                (demo_obs 90 (-180) 1000) demo_dispatch NoRouteFault) as H.
  cbv zeta in H.
  destruct (snd (gps_endpoint_live source_config "recipient"
                   (globals_of simulation_system demo_world [])
                   (demo_obs 90 (-180) 1000) demo_dispatch NoRouteFault))
    as [r|e|e] eqn:E.
  - destruct H as (_ & self & _ & _ & Hlat & Hlon & _);
      try (simpl; unfold Qle; simpl; lia).
    exists r. split; [reflexivity|]. split; [exact Hlat|exact Hlon].
  - vm_compute in E. discriminate.
  - vm_compute in E. discriminate.
Defined.

Lemma zero_quota_never_escalates_witness :
  let os := [demo_obs 22.5 69.0 1000; demo_obs 24.05 67.95 1010;
             demo_obs 23.8 68.2 1300; demo_obs 24.05 67.95 1400] in
  (MAX_EMERGENCY_CALLS quota0_config <= 0)%Z
  /\ count_authorized (snd (serve quota0_config demo_world os)) = 0%nat
  /\ last_call_time (ENGINE (fst (serve quota0_config demo_world os))) = None.
Proof.
  cbv zeta. split; [simpl; lia|].
  apply (zero_quota_never_escalates quota0_config demo_world
           [demo_obs 22.5 69.0 1000; demo_obs 24.05 67.95 1010;
            demo_obs 23.8 68.2 1300; demo_obs 24.05 67.95 1400]).
  simpl. lia.
Defined.

Lemma positive_quota_never_refuses_witness :
  (1 <= MAX_EMERGENCY_CALLS source_config)%Z
  /\ requires_emergency_call
       (snd (process_gps source_config (ENGINE world_after_exit)
               (boundary_events world_after_exit) 24.2 67.8 10 1100 true))
     = false.
Proof.
  split; [simpl; lia|].
  rewrite (positive_quota_never_refuses source_config (ENGINE world_after_exit)
             (boundary_events world_after_exit) 24.2 67.8 10 1100 true);
    [reflexivity|simpl; lia].
Defined.

Lemma taxicab_nonneg (p q : Q * Q) : 0 <= taxicab p q.
Proof.
  unfold taxicab.
  pose proof (Qabs_nonneg (fst p - fst q)).
  pose proof (Qabs_nonneg (snd p - snd q)).
  lra.
Defined.

Lemma boundary_distance_is_attained_or_zero_witness :
  0 <= _calculate_boundary_distance demo_engine 24.05 67.95.
Proof.
  apply (boundary_distance_is_attained_or_zero 24.05 67.95 demo_engine).
  exact taxicab_nonneg.
Defined.

Lemma more_lines_never_increase_distance_witness :
  _calculate_boundary_distance two_line_engine 24.05 67.95
  <= _calculate_boundary_distance demo_engine 24.05 67.95
  /\ _calculate_boundary_distance no_line_engine 24.05 67.95 = 0
  /\ _calculate_boundary_distance no_line_engine 24.05 67.95
     <= _calculate_boundary_distance demo_engine 24.05 67.95.
Proof.
  destruct (more_lines_never_increase_distance 24.05 67.95 demo_engine
              two_line_engine [west_line]) as [Hless _].
  - reflexivity.
  - repeat constructor; simpl; lia.
  - destruct (more_lines_never_increase_distance 24.05 67.95 no_line_engine
                demo_engine [demo_line]) as [_ Hnone].
    + reflexivity.
    + repeat constructor; simpl; lia.
    + destruct (Hnone eq_refl) as (Hzero & _ & Hmore).
      split; [apply Hless; simpl; discriminate|].
      split; [exact Hzero|apply Hmore; exact taxicab_nonneg].
Defined.

Lemma line_order_does_not_change_distance_witness :
  _calculate_boundary_distance two_line_engine_swapped 24.05 67.95
  == _calculate_boundary_distance two_line_engine 24.05 67.95.
Proof.
  apply (line_order_does_not_change_distance 24.05 67.95 two_line_engine
           two_line_engine_swapped).
  - simpl. apply perm_swap.
  - repeat constructor; simpl; lia.
Defined.

Lemma scenario_index_stays_in_table_witness :
  let rounds := map quiet_round [0; 2; 4; 6; 8; 10; 12; 14; 16; 18] in
  let out := feed_rounds source_config "recipient" source_test_config
               (Initialised simulation_system) fresh_testing_system
               demo_world [] rounds in
  let far_north := feed_rounds source_config "recipient" far_north_test_config
                     (Initialised simulation_system) fresh_testing_system
                     demo_world [] (map quiet_round [0; 2; 4]) in
  (0 <= scenario_index (fst (fst (fst out))) < 7)%Z
  /\ List.length (snd out) = 10%nat
  /\ Forall (fun r => r <> None) (snd out)
  /\ far_north = (fresh_testing_system, demo_world, [], [None; None; None]).
Proof.
  cbv zeta.
  destruct (scenario_index_stays_in_table source_config "recipient"
              source_test_config (Initialised simulation_system)
              fresh_testing_system demo_world []
              (map quiet_round [0; 2; 4; 6; 8; 10; 12; 14; 16; 18]))
    as (Hb & _ & Hlen & Hall & _).
  - reflexivity.
  - simpl. lia.
  - destruct (scenario_index_stays_in_table source_config "recipient"
                far_north_test_config (Initialised simulation_system)
                fresh_testing_system demo_world []
                (map quiet_round [0; 2; 4]))
      as (_ & _ & _ & _ & Hnone).
    + reflexivity.
    + simpl. lia.
    + split; [exact Hb|]. split; [exact Hlen|]. split.
      * apply (Hall simulation_system eq_refl).
        repeat constructor;
          intros sc Hin; simpl in Hin;
          repeat (destruct Hin as [<-|Hin]; [reflexivity|]); destruct Hin.
      * apply (Hnone _ eq_refl). repeat constructor.
Defined.

Lemma scenario_dwell_time_witness :
  let rounds := [quiet_round 0; raising_round 2; quiet_round 4; quiet_round 6;
                 raising_round 8; quiet_round 10; raising_round 12] in
  let out := feed_rounds source_config "recipient" source_test_config
               (Initialised simulation_system) fresh_testing_system
               demo_world [] rounds in
  completed (snd out) = 4%nat
  /\ scenario_index (fst (fst (fst out))) = 1%Z
  /\ scenario_timer (fst (fst (fst out))) = 0%Z.
Proof.
  cbv zeta. split; [reflexivity|].
  destruct (scenario_dwell_time source_config "recipient" source_test_config
              (Initialised simulation_system)
              {| sc_name := "inside_indian_waters"; sc_lat := 22.5;
                 sc_lon := 69.0; sc_inside_boundary := true; sc_duration := 8 |}
              fresh_testing_system demo_world []
              [quiet_round 0; raising_round 2; quiet_round 4; quiet_round 6;
               raising_round 8; quiet_round 10; raising_round 12])
    as (_ & Hnext & _); try reflexivity.
  apply Hnext; vm_compute; first [reflexivity|discriminate].
Defined.

Lemma test_feed_positions_are_in_range_witness :
  let sc := {| sc_name := "at_boundary_line"; sc_lat := 24.0; sc_lon := 68.0;
               sc_inside_boundary := true; sc_duration := 4 |} in
  invalid_coordinates (obs_lat (feed_observation sc (quiet_input 0)))
    (obs_lon (feed_observation sc (quiet_input 0))) = false.
Proof.
  cbv zeta. apply test_feed_positions_are_in_range.
  - simpl. right. right. left. reflexivity.
  - simpl. unfold Qle. simpl. lia.
  - simpl. unfold Qle. simpl. lia.
  - simpl. unfold Qle. simpl. lia.
  - simpl. unfold Qle. simpl. lia.
Defined.

Lemma required_call_needs_an_initialised_call_system_witness :
  let o := demo_obs 24.05 67.95 1010 in
  let out := gps_endpoint_live source_config "recipient" module_globals o
               demo_dispatch NoRouteFault in
  snd out = Response_500 no_twilio_client
  /\ g_emergency_calls (fst out) = []
  /\ exists r2,
       snd (gps_endpoint_live source_config "recipient" (fst out) o
              demo_dispatch NoRouteFault) = Response_200 r2
       /\ requires_emergency_call r2 = false.
Proof.
  cbv zeta.
  destruct (required_call_needs_an_initialised_call_system source_config
              "recipient" module_globals demo_engine
              (demo_obs 24.05 67.95 1010) demo_dispatch
              eq_refl eq_refl eq_refl eq_refl) as [Hbare _].
  destruct (Hbare eq_refl) as (H500 & _ & _ & Hcalls & _ & _ & Hagain).
  split; [exact H500|]. split; [exact Hcalls|].
  destruct (Hagain (demo_obs 24.05 67.95 1010) demo_dispatch eq_refl eq_refl)
    as (r2 & H2 & Hr & _).
  exists r2. split; [exact H2|exact Hr].
Defined.

Lemma other_geojson_types_give_no_boundary_witness :
  load_geojson_lines demo_make_LineString (JObj bare_line_members) = inr []
  /\ _calculate_boundary_distance no_line_engine 24.05 67.95 = 0
  /\ @load_engine demo_geometry demo_make_LineString demo_shape
       demo_zone_json (JObj bare_line_members)
     = inl TypeError.
Proof.
  destruct (@other_geojson_types_give_no_boundary demo_geometry
              demo_make_LineString demo_shape bare_line_members
              eq_refl eq_refl) as (Hload & Hdist & Hmain).
  split; [exact Hload|].
  split; [apply (Hdist no_line_engine [] 24.05 67.95 Hload eq_refl)|].
  apply (Hmain demo_zone_json demo_ring eq_refl).
Defined.


(** The files [create_demo_boundaries] writes load into the ring and the
    line of the demonstration engine used above; the constructor call of
    [main] then raises. *)
Lemma demo_files_load_but_build_no_engine :
  load_geojson_polygon demo_shape "india_maritime_zone.geojson" demo_zone_json
  = inr demo_ring
  /\ load_geojson_lines demo_make_LineString demo_boundary_json
     = inr [demo_line]
  /\ @load_engine demo_geometry demo_make_LineString demo_shape demo_zone_json
       demo_boundary_json
     = inl TypeError.
Proof. repeat split; reflexivity. Qed.
